(** * varmap: positions, region annotations and records (varmap/record.py)

    A shallow embedding of the coordinate and region-classification code of
    [varmap/record.py].  Python integers are [Z], Python byte strings are
    [string], [None]-able and [hasattr]-guarded attributes are [option]
    fields, and a call that can raise returns a [res]. *)

From Stdlib Require Import ZArith Lia Ascii String List.
From Stdlib Require Import Decimal DecimalString DecimalFacts DecimalPos DecimalZ.
From stdpp Require Import base option list strings gmap.

Local Open Scope Z_scope.

(** ** Exceptions and results *)

(** The exceptions the modelled code can raise.  [NonIntegerOffset] is not a
    Python exception: it marks the runs of [eval] that leave the integers
    (a negative exponent under [**] gives a float, a ZeroDivisionError or an
    OverflowError), which are not followed further since every offset of this
    development is an integer. *)
Inductive exn : Type :=
  | InvalidInputError (msg : string)
  | SyntaxError
  | TypeError
  | AttributeError
  | NonIntegerOffset.

Inductive res (A : Type) : Type :=
  | Ok (a : A)
  | Raise (e : exn).
Arguments Ok {A} a.
Arguments Raise {A} e.

(** Sequencing: the first exception raised ends the computation. *)
#[global] Instance res_bind : MBind res := fun A B k m =>
  match m with
  | Ok a => k a
  | Raise e => Raise e
  end.

(** An attribute access on an attribute that may be missing. *)
Definition getattr {A : Type} (o : option A) : res A :=
  match o with
  | Some a => Ok a
  | None => Raise AttributeError
  end.

(** ** Python built-ins on byte strings

    A token is read as ASCII text.  On ASCII text [str.isdigit], [int] and
    the class [\d] of Python 3 go by the digits [0-9], which is what
    [is_digit] decides; on other text they also accept further decimal
    digits.  Where a statement about an arbitrary token depends on this, it
    assumes [ascii_only]. *)

Definition is_digit (c : ascii) : bool :=
  let n := N_of_ascii c in ((48 <=? n) && (n <=? 57))%N.

Definition digit_val (c : ascii) : Z := Z.of_N (N_of_ascii c) - 48.

Fixpoint all_chars (p : ascii -> bool) (s : string) : bool :=
  match s with
  | EmptyString => true
  | String c s' => p c && all_chars p s'
  end.

(** An ASCII character, and a text of ASCII characters. *)
Definition is_ascii (c : ascii) : bool := (N_of_ascii c <? 128)%N.

Definition ascii_only (s : string) : bool := all_chars is_ascii s.

(** [s.isdigit()] on ASCII text: at least one character and all of them
    digits. *)
Definition isdigit (s : string) : bool :=
  match s with
  | EmptyString => false
  | String _ _ => all_chars is_digit s
  end.

(** [int(s)] on a string of digits, most significant digit first. *)
Fixpoint int_acc (s : string) (acc : Z) : Z :=
  match s with
  | EmptyString => acc
  | String c s' => int_acc s' (10 * acc + digit_val c)
  end.

Definition int_of_digits (s : string) : Z := int_acc s 0.

(** [str(z)] and ['%d' % z] for an integer [z]. *)
Definition str_Z (z : Z) : string := NilZero.string_of_int (Z.to_int z).

(** ['%s' % x] where [x] is a string or [None]. *)
Definition pct_s (x : option string) : string :=
  match x with
  | Some s => s
  | None => "None"
  end.

(** [sep.join(l)]. *)
Fixpoint join (sep : string) (l : list string) : string :=
  match l with
  | [] => ""
  | [x] => x
  | x :: l' => x +:+ sep +:+ join sep l'
  end.

(** Truth value of a string or [None]: false for [None] and for [""]. *)
Definition truthy (x : option string) : bool :=
  match x with
  | Some (String _ _) => true
  | _ => false
  end.

Definition str_truthy (s : string) : bool :=
  match s with
  | EmptyString => false
  | String _ _ => true
  end.

(** ** Regular expressions of [parse_pos]

    [re.match] anchors at the start of the string only.  A greedy [p+] is
    tried longest match first and gives characters back one at a time. *)

(** Every way [p+] can match a prefix of [s], with the rest of the input, in
    the order a backtracking matcher tries them. *)
Fixpoint plus_splits (p : ascii -> bool) (s : string) : list (string * string) :=
  match s with
  | EmptyString => []
  | String c s' =>
      if p c
      then map (fun mr => (String c (fst mr), snd mr)) (plus_splits p s')
             ++ [(String c EmptyString, s')]
      else []
  end.

(** The class [[+\-0-9]]. *)
Definition is_signed_char (c : ascii) : bool :=
  is_digit c || Ascii.eqb c "+" || Ascii.eqb c "-".

(** The class [[*+\-0-9]]. *)
Definition is_anchor_char (c : ascii) : bool :=
  Ascii.eqb c "*" || is_signed_char c.

(** [re.match(r'(\d+)([+\-0-9]+)', s)] on ASCII text: groups 1 and 2 of the
    first match. *)
Definition re_match_base_offset (s : string) : option (string * string) :=
  head (flat_map
          (fun mr1 => map (fun mr2 => (fst mr1, fst mr2))
                          (plus_splits is_signed_char (snd mr1)))
          (plus_splits is_digit s)).

(** [re.match(r'([*+\-0-9]+)', s)]: group 1 of the first match. *)
Definition re_match_anchor (s : string) : option string :=
  fst <$> head (plus_splits is_anchor_char s).

(** ** [eval] on the strings the two groups can hold

    The groups hold only digits, [+], [-] and [*], so [eval] sees an
    arithmetic expression of Python 3: decimal literals, unary and binary
    [+] and [-], [*] and [**]. *)

Inductive token : Type :=
  | TNum (digits : string)
  | TPlus
  | TMinus
  | TStar
  | TPow.

(** Tokens by longest match: a run of digits is one literal, [**] is one
    operator.  Any other character is a syntax error here. *)
Fixpoint tokenize (s : string) : option (list token) :=
  match s with
  | EmptyString => Some []
  | String "*" (String "*" s'') => cons TPow <$> tokenize s''
  | String c s' =>
      ts ← tokenize s';
      if is_digit c then
        Some (match ts with
              | TNum d :: ts' => TNum (String c d) :: ts'
              | _ => TNum (String c EmptyString) :: ts
              end)
      else if Ascii.eqb c "+" then Some (TPlus :: ts)
      else if Ascii.eqb c "-" then Some (TMinus :: ts)
      else if Ascii.eqb c "*" then Some (TStar :: ts)
      else None
  end.

(** A decimal literal: no leading zero unless every digit is zero. *)
Definition literal (d : string) : option Z :=
  match d with
  | String "0" _ =>
      if all_chars (fun c => Ascii.eqb c "0") d then Some 0 else None
  | _ => Some (int_of_digits d)
  end.

(** Values of the evaluator: an integer, or [None] once a negative exponent
    has left the integers. *)
Definition val : Type := option Z.

Definition val_neg (v : val) : val := Z.opp <$> v.
Definition val_add (v w : val) : val := x ← v; y ← w; Some (x + y).
Definition val_sub (v w : val) : val := x ← v; y ← w; Some (x - y).
Definition val_mul (v w : val) : val := x ← v; y ← w; Some (x * y).
Definition val_pow (v w : val) : val :=
  x ← v; y ← w; if y <? 0 then None else Some (x ^ y).

(** factor: ('+'|'-') factor | power;  power: NUMBER ['**' factor]. *)
Fixpoint factor (n : nat) (ts : list token) : option (val * list token) :=
  match n with
  | O => None
  | S n =>
      match ts with
      | TPlus :: r => factor n r
      | TMinus :: r => prod_map val_neg id <$> factor n r
      | TNum d :: TPow :: r =>
          x ← literal d;
          er ← factor n r;
          Some (val_pow (Some x) (fst er), snd er)
      | TNum d :: r => x ← literal d; Some (Some x, r)
      | _ => None
      end
  end.

(** term: factor ('*' factor)*. *)
Fixpoint term_rest (n : nat) (acc : val) (ts : list token)
  : option (val * list token) :=
  match n with
  | O => None
  | S n =>
      match ts with
      | TStar :: r => vr ← factor n r; term_rest n (val_mul acc (fst vr)) (snd vr)
      | _ => Some (acc, ts)
      end
  end.

Definition term (n : nat) (ts : list token) : option (val * list token) :=
  vr ← factor n ts; term_rest n (fst vr) (snd vr).

(** arith_expr: term (('+'|'-') term)*, to the end of the input. *)
Fixpoint expr_rest (n : nat) (acc : val) (ts : list token) : option val :=
  match n with
  | O => None
  | S n =>
      match ts with
      | [] => Some acc
      | TPlus :: r => vr ← term n r; expr_rest n (val_add acc (fst vr)) (snd vr)
      | TMinus :: r => vr ← term n r; expr_rest n (val_sub acc (fst vr)) (snd vr)
      | _ => None
      end
  end.

Definition expr (n : nat) (ts : list token) : option val :=
  vr ← term n ts; expr_rest n (fst vr) (snd vr).

(** [eval(s)].  Each call of the parser consumes a token before it recurses,
    so one unit of fuel per token, and one to see the end, is enough. *)
Definition py_eval (s : string) : res Z :=
  match tokenize s with
  | None => Raise SyntaxError
  | Some ts =>
      match expr (S (length ts)) ts with
      | None => Raise SyntaxError
      | Some None => Raise NonIntegerOffset
      | Some (Some z) => Ok z
      end
  end.

(** ** class Pos *)

Module Pos.

(** [pos] is the coordinate (negative: measured from the end of the coding
    sequence), [tpos] the offset relative to the exon boundary. *)
Record obj : Type := mk { pos : Z; tpos : Z }.

(** [__repr__] *)
Definition repr (self : obj) : string :=
  if tpos self <? 0 then str_Z (pos self) +:+ str_Z (tpos self)
  else if tpos self >? 0 then
    if pos self <? 0 then "*" +:+ str_Z (tpos self)
    else str_Z (pos self) +:+ "+" +:+ str_Z (tpos self)
  else str_Z (pos self).

(** [__eq__] *)
Definition eq (self other : obj) : bool :=
  if (pos self =? pos other) && (tpos self =? tpos other) then true else false.

(** [add] and [subtract] mutate the object: the new state is returned. *)
Definition add (self : obj) (inc : Z) : obj :=
  if tpos self =? 0 then mk (pos self + inc) (tpos self)
  else mk (pos self) (tpos self + inc).

Definition subtract (self : obj) (inc : Z) : obj :=
  if tpos self =? 0 then mk (pos self - inc) (tpos self)
  else mk (pos self) (tpos self - inc).

Definition included_plus (self : obj) : Z :=
  if tpos self >? 0 then pos self + 1 else pos self.

Definition included_minus (self : obj) : Z :=
  if tpos self <? 0 then pos self - 1 else pos self.

End Pos.

Definition same_intron (p1 p2 : Pos.obj) : bool :=
  if (Pos.included_minus p1 =? Pos.included_minus p2)
     && negb (Pos.tpos p1 =? 0) && negb (Pos.tpos p2 =? 0)
  then true else false.

Definition append_inf (f a : string) : string :=
  if str_truthy f then f +:+ ";" +:+ a else a.

(** ** parse_pos *)

Definition parse_pos (posstr : string) : res Pos.obj :=
  if isdigit posstr then
    Ok (Pos.mk (int_of_digits posstr) 0)
  else
    match re_match_base_offset posstr with
    | Some (g1, g2) =>
        tp ← py_eval g2;
        Ok (Pos.mk (int_of_digits g1) tp)
    | None =>
        match re_match_anchor posstr with
        | Some g1 =>
            let p := match g1 with
                     | String "-" _ => 1
                     | _ => -1
                     end in
            let tpos := match g1 with
                        | String "*" rest => rest
                        | _ => g1
                        end in
            tp ← py_eval tpos;
            Ok (Pos.mk p tp)
        | None =>
            Raise (InvalidInputError ("invalid_position_string_" +:+ posstr))
        end
    end.

(** ** Collaborators of the region annotations *)

(** Modelled from the spec: the Transcript class is not part of record.py;
    these are the attributes record.py reads from it (section 6 of the
    specification).  [t1 == t2] is equality of the referenced transcripts. *)
Module Transcript.
Record obj : Type := mk {
  gene_name : string;
  gene_dbxref : string;
  aliases : list string;
  source : string;
  strand : string;
  chrm : string;
  cds_beg : Z;
  cds_end : Z
}.
#[global] Instance obj_eq_dec : EqDecision obj.
Proof. solve_decision. Defined.
End Transcript.

(** Modelled from the spec: a gene of the [spanning] list; record.py reads
    its [name] only. *)
Module Gene.
Record obj : Type := mk { name : string }.
End Gene.

(** An argument of ['%d']: [None] raises TypeError. *)
Definition int_arg (x : option Z) : res Z :=
  match x with
  | Some z => Ok z
  | None => Raise TypeError
  end.

(** [locale.format('%d', d, grouping=False)]: with grouping switched off the
    result is ['%d' % d], whatever the locale. *)
Definition format_group (d : Z) : string := str_Z d.

(** ** class RegIntergenicAnno *)

Module RegIntergenicAnno.

Record obj : Type := mk {
  e5_name : option string;
  e5_dist : option Z;
  e5_strand : option string;
  e3_name : option string;
  e3_dist : option Z;
  e3_strand : option string
}.

Definition init : obj := mk None None None None None None.

Definition e5_stream (self : obj) : option string :=
  match e5_strand self with
  | None => None
  | Some s => if String.eqb s "+" then Some "downstream" else Some "upstream"
  end.

Definition e3_stream (self : obj) : option string :=
  match e3_strand self with
  | None => None
  | Some s => if String.eqb s "-" then Some "downstream" else Some "upstream"
  end.

Definition format0 (self : obj) : res string :=
  let n5 := pct_s (e5_name self) in
  f5 ← (match e5_strand self with
        | None => d ← int_arg (e5_dist self); Ok (format_group d +:+ "_bp")
        | Some _ =>
            d ← int_arg (e5_dist self);
            Ok (format_group d +:+ "_bp_" +:+ pct_s (e5_stream self))
        end);
  let n3 := pct_s (e3_name self) in
  f3 ← (match e3_strand self with
        | None => d ← int_arg (e3_dist self); Ok (format_group d +:+ "_bp")
        | Some _ =>
            d ← int_arg (e3_dist self);
            Ok (format_group d +:+ "_bp_" +:+ pct_s (e3_stream self))
        end);
  Ok ("intergenic_between_" +:+ n5 +:+ "(" +:+ f5 +:+ ")_and_"
        +:+ n3 +:+ "(" +:+ f3 +:+ ")").

Definition format (self : obj) : res string :=
  s ← format0 self; Ok ("inside_[" +:+ s +:+ "]").

End RegIntergenicAnno.

(** ** class SpliceSite *)

Module SpliceSite.

Record obj : Type := mk {
  chrm : string;
  pos : Z;
  exonno : Z;
  stype : string;
  nextto : bool
}.

Definition init : obj := mk "chrNA" (-1) (-1) "Donor" false.

Definition format (self : obj) : string :=
  let s := "" in
  let s := if nextto self then s +:+ "NextTo" else s in
  s +:+ "Splice" +:+ stype self +:+ "OfExon" +:+ str_Z (exonno self)
    +:+ "_At_" +:+ chrm self +:+ ":" +:+ str_Z (pos self).

End SpliceSite.

(** ** class RegAnno: annotation of a single site *)

Module RegAnno.

(** The fields of [__init__], then the attributes the transcript model
    attaches ([hasattr]-guarded in record.py, [None] when absent). *)
Record obj : Type := mk {
  exonic : bool;
  exon : option Z;
  cds : bool;
  UTR : option string;
  intronic : bool;
  intron_exon1 : option Z;
  intron_exon2 : option Z;
  cds_beg : option Z;
  cds_end : option Z;
  intergenic : option RegIntergenicAnno.obj;
  t : option Transcript.obj;
  splice : option SpliceSite.obj;
  tss : option Z;
  tes : option Z
}.

Definition init : obj :=
  mk false None false None false None None None None None None None None None.

Definition genic (self : obj) : bool :=
  match intergenic self with
  | Some _ => false
  | None => true
  end.

Definition entirely_in_cds (self : obj) : bool := cds self.

Definition csqn (self : obj) : string :=
  if intronic self then "Intronic"
  else if truthy (UTR self) then pct_s (UTR self) +:+ "-UTR"
  else if bool_decide (is_Some (intergenic self)) then "Intergenic"
  else "Unclassified".

Definition format0 (self : obj) (with_name : bool) : res string :=
  match intergenic self with
  | Some ig => RegIntergenicAnno.format0 ig
  | None =>
      let f := "" in
      let f := if truthy (UTR self)
               then append_inf f (pct_s (UTR self) +:+ "-UTR") else f in
      f ← (if intronic self then
             e1 ← int_arg (intron_exon1 self);
             e2 ← int_arg (intron_exon2 self);
             Ok (append_inf f ("intron_between_exon_" +:+ str_Z e1
                                 +:+ "_and_" +:+ str_Z e2))
           else if exonic self then
             if cds self then
               e ← int_arg (exon self);
               Ok (append_inf f ("cds_in_exon_" +:+ str_Z e))
             else
               e ← int_arg (exon self);
               Ok (append_inf f ("noncoding_exon_" +:+ str_Z e))
           else Ok f);
      if with_name then
        tr ← getattr (t self);
        Ok (append_inf f (Transcript.gene_name tr))
      else Ok f
  end.

Definition format (self : obj) (with_name : bool) : res string :=
  s ← format0 self with_name; Ok ("inside_[" +:+ s +:+ "]").

End RegAnno.

(** [same_region]: [and] and [or] evaluate left to right and stop early. *)
Definition same_region (r1 r2 : RegAnno.obj) : res bool :=
  s1 ← RegAnno.format r1 false;
  s2 ← RegAnno.format r2 false;
  Ok (String.eqb s1 s2
      && (negb (bool_decide (is_Some (RegAnno.t r1)))
          || negb (bool_decide (is_Some (RegAnno.t r2)))
          || bool_decide (RegAnno.t r1 = RegAnno.t r2))).

(** ** class RegCDSAnno: annotation at codon level *)

Module RegCDSAnno.

Record obj : Type := mk { exons : list Z; t : Transcript.obj }.

Definition format0 (self : obj) : string :=
  let s := "" in
  match exons self with
  | [e] => append_inf s ("cds_in_exon_" +:+ str_Z e)
  | es => append_inf s ("cds_in_exons_[" +:+ join "," (map str_Z es) +:+ "]")
  end.

Definition format (self : obj) : string :=
  "inside_[" +:+ format0 self +:+ "]".

End RegCDSAnno.

(** ** class RegSpanAnno: annotation of a span *)

Module RegSpanAnno.

(** Modelled from the spec: the [intergenic] attachment of a span is
    populated by the transcript model, which is not part of record.py;
    record.py calls its [format()] and reads its [spanning] list. *)
Record intergenic_obj : Type := mk_intergenic {
  ig_anno : RegIntergenicAnno.obj;
  ig_spanning : list Gene.obj
}.

(** The two boundaries and the [spanning] list of [__init__], then the
    attachments of the transcript model ([None] when absent).  A splice
    entry is (exon index, chromosome, position). *)
Record obj : Type := mk {
  b1 : RegAnno.obj;
  b2 : RegAnno.obj;
  spanning : list Gene.obj;
  splice_donors : option (list (Z * string * Z));
  splice_acceptors : option (list (Z * string * Z));
  splice_both : option (list Z);
  cross_start : option bool;
  cross_end : option bool;
  intergenic : option intergenic_obj;
  t : option Transcript.obj
}.

Definition in_UTR (self : obj) : bool :=
  truthy (RegAnno.UTR (b1 self)) && truthy (RegAnno.UTR (b2 self))
  && bool_decide (RegAnno.UTR (b1 self) = RegAnno.UTR (b2 self)).

Definition in_exon (self : obj) : bool :=
  RegAnno.exonic (b1 self) && RegAnno.exonic (b2 self)
  && bool_decide (RegAnno.exon (b1 self) = RegAnno.exon (b2 self)).

Definition entirely_in_cds (self : obj) : bool :=
  RegAnno.cds (b1 self) && RegAnno.cds (b2 self)
  && bool_decide (RegAnno.exon (b1 self) = RegAnno.exon (b2 self)).

Definition in_intron (self : obj) : bool :=
  RegAnno.intronic (b1 self) && RegAnno.intronic (b2 self)
  && bool_decide (RegAnno.intron_exon1 (b1 self) = RegAnno.intron_exon1 (b2 self))
  && bool_decide (RegAnno.intron_exon2 (b1 self) = RegAnno.intron_exon2 (b2 self)).

(** [hasattr(self, a) and len(self.a) > 0] for a list attachment. *)
Definition nonempty {A : Type} (a : option (list A)) : bool :=
  match a with
  | Some (_ :: _) => true
  | _ => false
  end.

Definition csqn (self : obj) : string :=
  if match intergenic self with
     | Some ig => (length (ig_spanning ig) =? 0)%nat
     | None => false
     end
  then "Intergenic"
  else if nonempty (splice_donors self) then "SpliceDonor"
  else if nonempty (splice_acceptors self) then "SpliceAcceptor"
  else if in_intron self then "Intronic"
  else if in_UTR self then pct_s (RegAnno.UTR (b1 self)) +:+ "-UTR"
  else "Unclassified".

Definition format (self : obj) : res string :=
  match intergenic self with
  | Some ig => RegIntergenicAnno.format (ig_anno ig)
  | None =>
      same ← same_region (b1 self) (b2 self);
      if (same : bool) then
        s ← RegAnno.format0 (b1 self) false; Ok ("inside_[" +:+ s +:+ "]")
      else
        s ← (if bool_decide (is_Some (RegAnno.t (b1 self)))
                && bool_decide (is_Some (RegAnno.t (b2 self)))
                && bool_decide (RegAnno.t (b1 self) = RegAnno.t (b2 self))
             then
               f1 ← RegAnno.format0 (b1 self) false;
               f2 ← RegAnno.format0 (b2 self) false;
               Ok ("from_[" +:+ f1 +:+ "]_to_[" +:+ f2 +:+ "]")
             else
               f1 ← RegAnno.format0 (b1 self) true;
               f2 ← RegAnno.format0 (b2 self) true;
               Ok ("from_[" +:+ f1 +:+ "]_to_[" +:+ f2 +:+ "]"));
        Ok (if (0 <? length (spanning self))%nat then
              if (length (spanning self) <=? 5)%nat then
                s +:+ "_spanning_[" +:+ join "," (map Gene.name (spanning self)) +:+ "]"
              else
                s +:+ "_spanning_[" +:+ str_Z (Z.of_nat (length (spanning self)))
                  +:+ "_genes]"
            else s)
  end.

End RegSpanAnno.

(** ** Queries and normalize_reg *)

(** The fields of a region query that [normalize_reg] reads and writes;
    [end_] is the attribute [end]. *)
Module Query.
Record obj (Tok : Type) : Type := mk { beg : Z; end_ : Z; tok : Tok }.
Arguments mk {Tok} beg end_ tok.
Arguments beg {Tok} _.
Arguments end_ {Tok} _.
Arguments tok {Tok} _.
End Query.

Section NormalizeReg.

(** Modelled from the spec: [reflen] (the reference-length provider, in
    faidx) and [err_warn] (in utils) are imported by record.py.  [reflen]
    maps the token of a query to the length of its chromosome; [err_warn]
    writes one warning and returns, modelled as the list of the messages
    written so far, oldest first. *)
Context {Tok : Type}.
Variable reflen : Tok -> Z.

Definition err_warn (log : list string) (msg : string) : list string :=
  log ++ [msg].

(** The region after the call and the warnings it wrote. *)
Definition normalize_reg (q : Query.obj Tok) : Query.obj Tok * list string :=
  let log : list string := [] in
  let '(q, log) :=
    if Query.beg q >? reflen (Query.tok q) then
      (Query.mk (reflen (Query.tok q)) (Query.end_ q) (Query.tok q),
       err_warn log ("region beg " +:+ str_Z (Query.beg q)
                       +:+ " greater than chromosome length "
                       +:+ str_Z (reflen (Query.tok q)) +:+ ", truncated."))
    else (q, log) in
  let '(q, log) :=
    if Query.end_ q >? reflen (Query.tok q) then
      (Query.mk (Query.beg q) (reflen (Query.tok q)) (Query.tok q),
       err_warn log ("region end " +:+ str_Z (Query.end_ q)
                       +:+ " greater than chromosome length "
                       +:+ str_Z (reflen (Query.tok q)) +:+ ", truncated."))
    else (q, log) in
  let '(q, log) :=
    if Query.beg q <? 0 then
      (Query.mk 0 (Query.end_ q) (Query.tok q),
       err_warn log "region beg %d negative, truncated to 0.")
    else (q, log) in
  let '(q, log) :=
    if Query.end_ q <? 0 then
      (Query.mk (Query.beg q) 0 (Query.tok q),
       err_warn log "region end %d negative, truncated to 0.")
    else (q, log) in
  (q, log).

End NormalizeReg.

(** [Query.set_pos] on ASCII text: the attribute [pos] of the query ([None]
    while it holds no integer) and the warnings written so far.  The result
    is the returned boolean, the attribute and the warnings after the call.
    [int] is read without the bound that an interpreter may put on the
    number of digits it converts (4300 by default); the statements about
    [set_pos] keep below it. *)
Definition set_pos (pos : option Z) (pos_str : string) (log : list string)
  : bool * option Z * list string :=
  if isdigit pos_str && (int_of_digits pos_str >? 0) then
    (true, Some (int_of_digits pos_str), log)
  else
    (false, pos, err_warn log ("abnormal position " +:+ pos_str +:+ ". skip.")).

(** ** class Record: one annotated output row *)

Module Record.

(** The value of [self.reg]: the string ['.'] until a region annotation is
    set. *)
Inductive reg_obj : Type :=
  | RegUnset
  | RegSite (a : RegAnno.obj)
  | RegSpan (s : RegSpanAnno.obj)
  | RegIntergenic (i : RegIntergenicAnno.obj)
  | RegCDS (c : RegCDSAnno.obj).

(** A coordinate attached to a record: an integer, a [Pos] or a string. *)
Inductive coord : Type :=
  | CInt (z : Z)
  | CPos (p : Pos.obj)
  | CStr (s : string).

Definition coord_truthy (c : option coord) : bool :=
  match c with
  | Some (CInt z) => negb (z =? 0)
  | Some (CPos _) => true
  | Some (CStr s) => str_truthy s
  | None => false
  end.

Definition coord_str (c : option coord) : string :=
  match c with
  | Some (CInt z) => str_Z z
  | Some (CPos p) => Pos.repr p
  | Some (CStr s) => s
  | None => "None"
  end.

(** The coordinate attributes a caller may attach; [None] when absent. *)
Record coords : Type := mk_coords {
  tnuc_range : option string;
  tnuc_pos : option coord;
  tnuc_ref : option string;
  tnuc_alt : option string;
  gnuc_range : option string;
  gnuc_pos : option coord;
  gnuc_ref : option string;
  gnuc_alt : option string;
  taa_range : option string;
  taa_ref : option string;
  taa_pos : option coord;
  taa_alt : option string;
  vcf_pos : option coord;
  vcf_ref : option string;
  vcf_alt : option string
}.

Definition no_coords : coords :=
  mk_coords None None None None None None None None None None None None
            None None None.

Record obj : Type := mk {
  tname : string;
  chrm : string;
  gene : string;
  strand : string;
  reg : reg_obj;
  info : string;
  is_var : bool;
  csqn : list string;
  co : coords
}.

(** [__init__] *)
Definition init (is_var : bool) : obj :=
  mk "." "." "." "." RegUnset "." is_var [] no_coords.

Definition set_info (self : obj) (i : string) : obj :=
  mk (tname self) (chrm self) (gene self) (strand self) (reg self) i
     (is_var self) (csqn self) (co self).

(** [self.csqn.append(c)] *)
Definition csqn_append (self : obj) (c : string) : obj :=
  mk (tname self) (chrm self) (gene self) (strand self) (reg self)
     (info self) (is_var self) (csqn self ++ [c]) (co self).

Definition info_set (self : obj) : bool :=
  str_truthy (info self) && negb (String.eqb (info self) ".").

Definition prepend_info (self : obj) (app : string) : obj :=
  if info_set self then set_info self (app +:+ ";" +:+ info self)
  else set_info self app.

Definition append_info (self : obj) (app : string) : obj :=
  if info_set self then set_info self (info self +:+ ";" +:+ app)
  else set_info self app.

Definition tnuc (self : obj) : string :=
  let s := "c." in
  if truthy (tnuc_range (co self)) then
    let s := s +:+ pct_s (tnuc_range (co self)) in
    if String.eqb s "c." then "." else s
  else
    let s := if coord_truthy (tnuc_pos (co self))
             then s +:+ coord_str (tnuc_pos (co self)) else s in
    let s := if truthy (tnuc_ref (co self))
             then s +:+ pct_s (tnuc_ref (co self)) else s in
    let s := s +:+ ">" in
    let s := if truthy (tnuc_alt (co self))
             then s +:+ pct_s (tnuc_alt (co self)) else s in
    if String.eqb s "c.>" then "." else s.

Definition gnuc (self : obj) : string :=
  let s := chrm self +:+ ":g." in
  let s :=
    if truthy (gnuc_range (co self)) then s +:+ pct_s (gnuc_range (co self))
    else
      let s := if coord_truthy (gnuc_pos (co self))
               then s +:+ coord_str (gnuc_pos (co self)) else s in
      let s := if truthy (gnuc_ref (co self))
               then s +:+ pct_s (gnuc_ref (co self)) else s in
      let s := s +:+ ">" in
      if truthy (gnuc_alt (co self))
      then s +:+ pct_s (gnuc_alt (co self)) else s in
  if String.eqb s ".:g.>" then "." else s.

Definition taa (self : obj) : string :=
  let s := "p." in
  let s :=
    if truthy (taa_range (co self)) then s +:+ pct_s (taa_range (co self))
    else
      let s := if truthy (taa_ref (co self))
               then s +:+ pct_s (taa_ref (co self)) else s in
      let s := if coord_truthy (taa_pos (co self))
               then s +:+ coord_str (taa_pos (co self)) else s in
      if truthy (taa_alt (co self))
      then s +:+ pct_s (taa_alt (co self)) else s in
  if String.eqb s "p." then "." else s.

Definition format_id (self : obj) : string :=
  gnuc self +:+ "/" +:+ tnuc self +:+ "/" +:+ taa self.

(** The local [expt] and the record, threaded through [set_splice]. *)
Definition set_splice_span (s : RegSpanAnno.obj) (action csqn_action : string)
    (self : obj) : res (bool * obj) :=
  let expt := false in
  let '(expt, self) :=
    match RegSpanAnno.splice_donors s with
    | Some donors =>
        let self := if (0 <? length donors)%nat
                    then csqn_append self ("SpliceDonor" +:+ csqn_action)
                    else self in
        fold_left
          (fun (st : bool * obj) (d : Z * string * Z) =>
             (true,
              append_info st.2
                ("C2=donor_splice_site_on_exon_" +:+ str_Z d.1.1 +:+ "_at_"
                   +:+ d.1.2 +:+ ":" +:+ str_Z d.2 +:+ action)))
          donors (expt, self)
    | None => (expt, self)
    end in
  let '(expt, self) :=
    match RegSpanAnno.splice_acceptors s with
    | Some acceptors =>
        let self := if (0 <? length acceptors)%nat
                    then csqn_append self ("SpliceAcceptor" +:+ csqn_action)
                    else self in
        fold_left
          (fun (st : bool * obj) (d : Z * string * Z) =>
             (true,
              append_info st.2
                ("C2=acceptor_splice_site_on_exon_" +:+ str_Z d.1.1 +:+ "_at_"
                   +:+ d.1.2 +:+ ":" +:+ str_Z d.2 +:+ action)))
          acceptors (expt, self)
    | None => (expt, self)
    end in
  let '(expt, self) :=
    match RegSpanAnno.splice_both s with
    | Some (e :: es) =>
        (true,
         append_info self
           ("whole_exon_[" +:+ join "," (map str_Z (e :: es)) +:+ "]" +:+ action))
    | _ => (expt, self)
    end in
  st ← (match RegSpanAnno.cross_start s with
        | Some true =>
            t ← getattr (RegSpanAnno.t s);
            if String.eqb (Transcript.strand t) "+" then
              Ok (true,
                  append_info (csqn_append self ("CdsStart" +:+ csqn_action))
                    ("cds_start_at_" +:+ Transcript.chrm t +:+ ":"
                       +:+ str_Z (Transcript.cds_beg t) +:+ action))
            else
              Ok (true,
                  append_info (csqn_append self ("CdsStop" +:+ csqn_action))
                    ("cds_stop_at_" +:+ Transcript.chrm t +:+ ":"
                       +:+ str_Z (Transcript.cds_beg t) +:+ action))
        | _ => Ok (expt, self)
        end);
  let '(expt, self) := (st : bool * obj) in
  match RegSpanAnno.cross_end s with
  | Some true =>
      t ← getattr (RegSpanAnno.t s);
      if String.eqb (Transcript.strand t) "+" then
        Ok (true,
            append_info (csqn_append self ("CdsStop" +:+ csqn_action))
              ("cds_end_at_" +:+ Transcript.chrm t +:+ ":"
                 +:+ str_Z (Transcript.cds_end t) +:+ action))
      else
        Ok (true,
            append_info (csqn_append self ("CdsStart" +:+ csqn_action))
              ("cds_start_at_" +:+ Transcript.chrm t +:+ ":"
                 +:+ str_Z (Transcript.cds_end t) +:+ action))
  | _ => Ok (expt, self)
  end.

Definition set_splice_site (a : RegAnno.obj) (csqn_action : string)
    (self : obj) : res (bool * obj) :=
  let expt := false in
  let synonymous := String.eqb csqn_action "Synonymous" in
  let '(expt, self) :=
    match RegAnno.splice a with
    | Some sp =>
        let '(expt, self) :=
          if negb (SpliceSite.nextto sp) && negb synonymous
          then (true,
                csqn_append self ("Splice" +:+ SpliceSite.stype sp +:+ csqn_action))
          else (expt, self) in
        (expt, append_info self ("C2=" +:+ SpliceSite.format sp))
    | None => (expt, self)
    end in
  st ← (match RegAnno.cds_beg a with
        | Some cb =>
            let expt := if negb synonymous then true else expt in
            let self := csqn_append self ("CdsStart" +:+ csqn_action) in
            t ← getattr (RegAnno.t a);
            Ok (expt,
                append_info self
                  ("C2=cds_start_at_" +:+ Transcript.chrm t +:+ ":" +:+ str_Z cb))
        | None => Ok (expt, self)
        end);
  let '(expt, self) := (st : bool * obj) in
  st ← (match RegAnno.cds_end a with
        | Some ce =>
            let expt := if negb synonymous then true else expt in
            let self := csqn_append self ("CdsStop" +:+ csqn_action) in
            t ← getattr (RegAnno.t a);
            Ok (expt,
                append_info self
                  ("C2=cds_end_at_" +:+ Transcript.chrm t +:+ ":" +:+ str_Z ce))
        | None => Ok (expt, self)
        end);
  let '(expt, self) := (st : bool * obj) in
  st ← (match RegAnno.tss a with
        | Some p =>
            let expt := if negb synonymous then true else expt in
            t ← getattr (RegAnno.t a);
            Ok (expt,
                append_info self
                  ("transcription_start_at_" +:+ Transcript.chrm t +:+ ":"
                     +:+ str_Z p))
        | None => Ok (expt, self)
        end);
  let '(expt, self) := (st : bool * obj) in
  match RegAnno.tes a with
  | Some p =>
      let expt := if negb synonymous then true else expt in
      t ← getattr (RegAnno.t a);
      Ok (expt,
          append_info self
            ("transcription_end_at_" +:+ Transcript.chrm t +:+ ":" +:+ str_Z p))
  | None => Ok (expt, self)
  end.

(** [set_splice]: the returned [expt] and the record after the call.  A
    [reg] that is neither a span nor a single site has no [cds_beg]. *)
Definition set_splice (self : obj) (action csqn_action : string)
  : res (bool * obj) :=
  let action := if str_truthy action then "_" +:+ action else action in
  match reg self with
  | RegSpan s => set_splice_span s action csqn_action self
  | RegSite a => set_splice_site a csqn_action self
  | _ => Raise AttributeError
  end.


(** [hasattr(self.reg, 't')] and [self.reg.t]. *)
Definition reg_t (r : reg_obj) : option Transcript.obj :=
  match r with
  | RegSite a => RegAnno.t a
  | RegSpan s => RegSpanAnno.t s
  | RegCDS c => Some (RegCDSAnno.t c)
  | _ => None
  end.

(** [self.reg.format()]; on the string ['.'] it is [str.format]. *)
Definition reg_format (r : reg_obj) : res string :=
  match r with
  | RegUnset => Ok "."
  | RegSite a => RegAnno.format a false
  | RegSpan s => RegSpanAnno.format s
  | RegIntergenic i => RegIntergenicAnno.format i
  | RegCDS c => Ok (RegCDSAnno.format c)
  end.

(** [len(set(self.csqn))] *)
Definition distinct (l : list string) : nat :=
  size (list_to_set l : gset string).

(** First block of [formats]: the consequence tag of a variant record. *)
Definition formats_csqn (self : obj) : obj :=
  if is_var self then
    match csqn self with
    | [] => prepend_info self "CSQN=Unclassified"
    | c0 :: _ =>
        if (distinct (csqn self) =? 1)%nat
        then prepend_info self ("CSQN=" +:+ c0)
        else prepend_info self ("CSQN=Multi:" +:+ join "," (csqn self))
    end
  else self.

(** Second block of [formats]: the metadata of the transcript. *)
Definition formats_meta (self : obj) : obj :=
  match reg_t (reg self) with
  | Some t =>
      let self := if str_truthy (Transcript.gene_dbxref t)
                  then append_info self ("dbxref=" +:+ Transcript.gene_dbxref t)
                  else self in
      let self := match Transcript.aliases t with
                  | _ :: _ =>
                      append_info self
                        ("aliases=" +:+ join "," (Transcript.aliases t))
                  | [] => self
                  end in
      if str_truthy (Transcript.source t)
      then append_info self ("source=" +:+ Transcript.source t)
      else self
  | None => self
  end.

Definition tab : string := String (ascii_of_nat 9) EmptyString.

Definition long_msg : string := "[LONG SEQUENCE, see --seqmax]".

(** [formats(args)]: the line and the record after the call; [gseq] is
    [args is not None and args.gseq]. *)
Definition formats (self : obj) (gseq : bool) : res (string * obj) :=
  let self := formats_csqn self in
  let self := formats_meta self in
  r ← reg_format (reg self);
  let s := tname self +:+ tab +:+ gene self +:+ tab +:+ strand self +:+ tab
             +:+ gnuc self +:+ "/" +:+ tnuc self +:+ "/" +:+ taa self
             +:+ tab +:+ r +:+ tab +:+ info self in
  let s :=
    if gseq then
      s +:+ tab +:+ chrm self
        +:+ tab +:+ (if coord_truthy (vcf_pos (co self))
                     then coord_str (vcf_pos (co self)) else ".")
        +:+ tab +:+ (if truthy (vcf_ref (co self))
                     then pct_s (vcf_ref (co self)) else long_msg)
        +:+ tab +:+ (if truthy (vcf_alt (co self))
                     then pct_s (vcf_alt (co self)) else long_msg)
    else s in
  Ok (s, self).

(** [format(op, args)]: the line is printed; [out] holds the lines printed so
    far, oldest first.  A failure of [print] itself is not modelled. *)
Definition format (self : obj) (op : string) (gseq : bool) (out : list string)
  : res (list string * obj) :=
  let s := if str_truthy op then op +:+ tab else "" in
  ls ← formats self gseq;
  Ok (out ++ [s +:+ ls.1], ls.2).

End Record.

(** ** Printing the records of a query *)

(** The options of the command line that record.py reads. *)
Module Args.
Record obj : Type := mk {
  custom : bool;
  oneline : bool;
  gseq : bool;
  verbose : Z;
  suspend : bool
}.
End Args.

Definition print_header_s : string :=
  "transcript" +:+ Record.tab +:+ "gene" +:+ Record.tab +:+ "strand"
    +:+ Record.tab +:+ "coordinates(gDNA/cDNA/protein)" +:+ Record.tab
    +:+ "region" +:+ Record.tab +:+ "info".

Definition print_header (args : Args.obj) : string :=
  let s := "input" +:+ Record.tab +:+ print_header_s in
  if Args.gseq args
  then s +:+ Record.tab +:+ "CHROM" +:+ Record.tab +:+ "POS" +:+ Record.tab
         +:+ "REF" +:+ Record.tab +:+ "ALT"
  else s.

(** [format_one(r, rs, qop, args)]: the record, the list [rs] and the lines
    printed, after the call. *)
Definition format_one (r : Record.obj) (rs : list string) (qop : string)
    (args : Args.obj) (out : list string)
  : res (Record.obj * list string * list string) :=
  if negb (Args.oneline args) then
    lr ← Record.format r qop (Args.gseq args) out;
    Ok (lr.2, rs, lr.1)
  else
    ls ← Record.formats r (Args.gseq args);
    Ok (ls.2, rs ++ [ls.1], out).

(** [[r.formats(args) for r in records]]: the lines and the records after
    the calls.  The records of the list are distinct objects. *)
Fixpoint formats_all (records : list Record.obj) (gseq : bool)
  : res (list string * list Record.obj) :=
  match records with
  | [] => Ok ([], [])
  | r :: records' =>
      ls ← Record.formats r gseq;
      rest ← formats_all records' gseq;
      Ok (ls.1 :: rest.1, ls.2 :: rest.2)
  end.

(** [for r in records: r.format(fqop, args)] *)
Fixpoint format_each (records : list Record.obj) (fqop : string) (gseq : bool)
    (out : list string) : res (list string * list Record.obj) :=
  match records with
  | [] => Ok (out, [])
  | r :: records' =>
      lr ← Record.format r fqop gseq out;
      rest ← format_each records' fqop gseq lr.1;
      Ok (rest.1, lr.2 :: rest.2)
  end.

(** [format_records(records, qop, args, custom_match)]: the lines printed
    and the records after the call. *)
Definition format_records (records : list Record.obj) (qop : string)
    (args : Args.obj) (custom_match : bool) (out : list string)
  : res (list string * list Record.obj) :=
  let fqop := if Args.custom args && negb custom_match
              then "*" +:+ qop else qop in
  if (0 <? length records)%nat then
    if Args.oneline args then
      let s := if str_truthy fqop then fqop +:+ Record.tab else "" in
      lrs ← formats_all records (Args.gseq args);
      Ok (out ++ [s +:+ join (Record.tab +:+ "|||" +:+ Record.tab) lrs.1],
          lrs.2)
    else
      format_each records fqop (Args.gseq args) out
  else
    let r := Record.init false in
    let r := Record.append_info r "no_valid_transcript_found" in
    lr ← Record.format r fqop (Args.gseq args) out;
    Ok (lr.1, []).


(** ** The statements of the specification that are compared with the code *)



(** The text of one flank of an intergenic site: the distance, and the
    direction when the strand of the flanking gene is known;
    [downstream_strand] is ["+"] for the 5' flank and ["-"] for the 3' one. *)
Definition flank_direction (downstream_strand : string) (strand : option string)
  : option string :=
  match strand with
  | None => None
  | Some s =>
      Some (if String.eqb s downstream_strand then "downstream" else "upstream")
  end.

Definition flank_text (downstream_strand : string) (dist : Z)
    (strand : option string) : string :=
  match flank_direction downstream_strand strand with
  | None => str_Z dist +:+ "_bp"
  | Some dir => str_Z dist +:+ "_bp_" +:+ dir
  end.

(** A precedence list: the label of the first rule whose condition holds. *)
Fixpoint first_label (rules : list (bool * string)) (default : string) : string :=
  match rules with
  | [] => default
  | (c, l) :: rules' => if c then l else first_label rules' default
  end.

(** An optional attachment that is present and satisfies [p]. *)
Definition attached_with {A : Type} (p : A -> bool) (o : option A) : bool :=
  match o with
  | Some a => p a
  | None => false
  end.

Definition is_empty {A : Type} (l : list A) : bool :=
  match l with
  | [] => true
  | _ :: _ => false
  end.

Definition span_csqn_rules (s : RegSpanAnno.obj) : list (bool * string) :=
  [ (attached_with (fun ig => is_empty (RegSpanAnno.ig_spanning ig))
                   (RegSpanAnno.intergenic s),
     "Intergenic");
    (attached_with (fun l => negb (is_empty l)) (RegSpanAnno.splice_donors s),
     "SpliceDonor");
    (attached_with (fun l => negb (is_empty l)) (RegSpanAnno.splice_acceptors s),
     "SpliceAcceptor");
    (RegSpanAnno.in_intron s, "Intronic");
    (RegSpanAnno.in_UTR s, pct_s (RegAnno.UTR (RegSpanAnno.b1 s)) +:+ "-UTR") ].

Definition site_csqn_rules (a : RegAnno.obj) : list (bool * string) :=
  [ (RegAnno.intronic a, "Intronic");
    (truthy (RegAnno.UTR a), pct_s (RegAnno.UTR a) +:+ "-UTR");
    (bool_decide (is_Some (RegAnno.intergenic a)), "Intergenic") ].

(** The tags of a span that crosses the start or the end of the coding
    sequence, by strand. *)
Definition cross_start_tag (strand csqn_action : string) : string :=
  if String.eqb strand "+" then "CdsStart" +:+ csqn_action
  else "CdsStop" +:+ csqn_action.

Definition cross_end_tag (strand csqn_action : string) : string :=
  if String.eqb strand "+" then "CdsStop" +:+ csqn_action
  else "CdsStart" +:+ csqn_action.

Section NormalizeRegStatement.

Context {Tok : Type}.
Variable reflen : Tok -> Z.

(** [normalize_reg] as the specification words it: negative endpoints are
    clamped to 0 before the upper clamp is checked. *)
Definition normalize_reg_lower_first (q : Query.obj Tok)
  : Query.obj Tok * list string :=
  let log : list string := [] in
  let '(q, log) :=
    if Query.beg q <? 0 then
      (Query.mk 0 (Query.end_ q) (Query.tok q),
       err_warn log "region beg %d negative, truncated to 0.")
    else (q, log) in
  let '(q, log) :=
    if Query.end_ q <? 0 then
      (Query.mk (Query.beg q) 0 (Query.tok q),
       err_warn log "region end %d negative, truncated to 0.")
    else (q, log) in
  let '(q, log) :=
    if Query.beg q >? reflen (Query.tok q) then
      (Query.mk (reflen (Query.tok q)) (Query.end_ q) (Query.tok q),
       err_warn log ("region beg " +:+ str_Z (Query.beg q)
                       +:+ " greater than chromosome length "
                       +:+ str_Z (reflen (Query.tok q)) +:+ ", truncated."))
    else (q, log) in
  let '(q, log) :=
    if Query.end_ q >? reflen (Query.tok q) then
      (Query.mk (Query.beg q) (reflen (Query.tok q)) (Query.tok q),
       err_warn log ("region end " +:+ str_Z (Query.end_ q)
                       +:+ " greater than chromosome length "
                       +:+ str_Z (reflen (Query.tok q)) +:+ ", truncated."))
    else (q, log) in
  (q, log).

(** The warnings of the upper clamp and of the lower clamp of a region. *)
Definition upper_warnings (q : Query.obj Tok) : list string :=
  (if Query.beg q >? reflen (Query.tok q)
   then ["region beg " +:+ str_Z (Query.beg q)
           +:+ " greater than chromosome length "
           +:+ str_Z (reflen (Query.tok q)) +:+ ", truncated."]
   else [])
  ++ (if Query.end_ q >? reflen (Query.tok q)
      then ["region end " +:+ str_Z (Query.end_ q)
              +:+ " greater than chromosome length "
              +:+ str_Z (reflen (Query.tok q)) +:+ ", truncated."]
      else []).

Definition lower_warnings (q : Query.obj Tok) : list string :=
  (if Query.beg q <? 0
   then ["region beg %d negative, truncated to 0."] else [])
  ++ (if Query.end_ q <? 0
      then ["region end %d negative, truncated to 0."] else []).

Definition clamp (x : Z) (q : Query.obj Tok) : Z :=
  Z.max 0 (Z.min x (reflen (Query.tok q))).

End NormalizeRegStatement.

(** [self'] is [self] with tags appended to its consequence tags and, when
    [self] has an info, with text appended to it; nothing else differs. *)
Definition record_extends (self self' : Record.obj) : Prop :=
  Record.tname self' = Record.tname self
  /\ Record.chrm self' = Record.chrm self
  /\ Record.gene self' = Record.gene self
  /\ Record.strand self' = Record.strand self
  /\ Record.reg self' = Record.reg self
  /\ Record.is_var self' = Record.is_var self
  /\ Record.co self' = Record.co self
  /\ (exists tags, Record.csqn self' = Record.csqn self ++ tags)
  /\ (Record.info_set self = true ->
      Record.info_set self' = true
      /\ exists suffix, Record.info self' = Record.info self +:+ suffix).

(** The text a span adds for the genes it spans: their names, up to five of
    them, and their number beyond that. *)
Definition spanning_suffix (genes : list Gene.obj) : string :=
  match genes with
  | [] => ""
  | _ :: _ =>
      if (length genes <=? 5)%nat
      then "_spanning_[" +:+ join "," (map Gene.name genes) +:+ "]"
      else "_spanning_[" +:+ str_Z (Z.of_nat (length genes)) +:+ "_genes]"
  end.

(** The info after [token] was put in front of [info]: the token alone when
    there was no info (an empty info or the placeholder "."), and the token,
    a semicolon and the info otherwise. *)
Definition info_prepended (token info : string) : string :=
  if String.eqb info "" || String.eqb info "." then token
  else token +:+ ";" +:+ info.

(** The metadata of the transcript of a region, as rendering appends them:
    the cross reference, the aliases and the source, each when it is not
    empty. *)
Definition meta_tokens (r : Record.reg_obj) : list string :=
  match Record.reg_t r with
  | Some t =>
      (if str_truthy (Transcript.gene_dbxref t)
       then ["dbxref=" +:+ Transcript.gene_dbxref t] else [])
      ++ (match Transcript.aliases t with
          | [] => []
          | _ :: _ => ["aliases=" +:+ join "," (Transcript.aliases t)]
          end)
      ++ (if str_truthy (Transcript.source t)
          then ["source=" +:+ Transcript.source t] else [])
  | None => []
  end.

(** The text these tokens add behind an info: each of them after a
    semicolon. *)
Definition meta_text (r : Record.reg_obj) : string :=
  match meta_tokens r with
  | [] => ""
  | _ :: _ => ";" +:+ join ";" (meta_tokens r)
  end.

(** The consequence token of a list of accumulated tags. *)
Definition csqn_token (tags : list string) : string :=
  match tags with
  | [] => "CSQN=Unclassified"
  | c0 :: _ =>
      if (Record.distinct tags =? 1)%nat then "CSQN=" +:+ c0
      else "CSQN=Multi:" +:+ join "," tags
  end.

(** * Properties of the code *)

(** ** Decimal strings and the regular expressions of [parse_pos] *)

Lemma all_chars_app p s1 s2 :
  all_chars p (s1 +:+ s2) = all_chars p s1 && all_chars p s2.
Proof.
  induction s1 as [|c s1 IH]; simpl; [reflexivity|].
  rewrite IH. apply andb_assoc.
Qed.

Lemma digits_of_uint u : all_chars is_digit (NilEmpty.string_of_uint u) = true.
Proof. induction u; simpl; auto. Qed.

Lemma int_acc_of_uint_acc u acc :
  int_acc (NilEmpty.string_of_uint u) (Z.pos acc)
  = Z.pos (BinPos.Pos.of_uint_acc u acc).
Proof.
  revert acc; induction u; intros acc; cbn [NilEmpty.string_of_uint int_acc BinPos.Pos.of_uint_acc];
    [reflexivity | rewrite <- IHu; f_equal; unfold digit_val; cbn; lia ..].
Qed.

Lemma int_acc_of_uint u :
  int_acc (NilEmpty.string_of_uint u) 0 = Z.of_N (BinPos.Pos.of_uint u).
Proof.
  induction u; cbn [NilEmpty.string_of_uint int_acc BinPos.Pos.of_uint];
    try reflexivity;
    match goal with
    | |- int_acc _ ?a = _ => let v := eval vm_compute in a in change a with v
    end;
    [exact IHu | apply int_acc_of_uint_acc ..].
Qed.

Lemma str_Z_pos p :
  str_Z (Z.pos p) = NilEmpty.string_of_uint (BinPos.Pos.to_uint p).
Proof.
  unfold str_Z; simpl.
  pose proof (Unsigned.to_uint_nonnil p) as H.
  destruct (BinPos.Pos.to_uint p); [contradiction | reflexivity ..].
Qed.

Lemma str_Z_neg p : str_Z (Z.neg p) = String "-" (str_Z (Z.pos p)).
Proof. reflexivity. Qed.

Lemma nzhead_not_D0 d u : nzhead d <> D0 u.
Proof. induction d; simpl; auto; discriminate. Qed.

Lemma to_uint_unorm p : unorm (BinPos.Pos.to_uint p) = BinPos.Pos.to_uint p.
Proof.
  rewrite <- Unsigned.to_of, Unsigned.of_to. reflexivity.
Qed.

Lemma literal_unorm d :
  literal (NilEmpty.string_of_uint (unorm d))
  = Some (int_of_digits (NilEmpty.string_of_uint (unorm d))).
Proof.
  unfold unorm. pose proof (nzhead_not_D0 d) as H.
  destruct (nzhead d); try reflexivity.
  exfalso; eapply H; reflexivity.
Qed.

Lemma int_str_Z z : 0 <= z -> int_of_digits (str_Z z) = z.
Proof.
  destruct z as [|p|p]; intros Hz; [reflexivity | | lia].
  rewrite str_Z_pos. unfold int_of_digits.
  rewrite int_acc_of_uint, Unsigned.of_to. reflexivity.
Qed.

Lemma literal_str_Z p : literal (str_Z (Z.pos p)) = Some (Z.pos p).
Proof.
  rewrite <- (int_str_Z (Z.pos p)) at 2 by lia.
  rewrite str_Z_pos, <- to_uint_unorm. apply literal_unorm.
Qed.

Lemma nonempty_of_uint u :
  u <> Nil -> exists c s, NilEmpty.string_of_uint u = String c s.
Proof. destruct u; intros H; [contradiction | simpl; eauto ..]. Qed.

Lemma str_Z_digits z :
  0 <= z ->
  exists c s, str_Z z = String c s /\ all_chars is_digit (String c s) = true.
Proof.
  destruct z as [|p|p]; intros Hz; [| | lia].
  - exists "0"%char, ""; split; reflexivity.
  - rewrite str_Z_pos.
    destruct (nonempty_of_uint _ (Unsigned.to_uint_nonnil p)) as (c & s & E).
    exists c, s; split; [exact E|]. rewrite <- E. apply digits_of_uint.
Qed.

Lemma isdigit_str_Z z : 0 <= z -> isdigit (str_Z z) = true.
Proof.
  intros Hz. destruct (str_Z_digits z Hz) as (c & s & -> & H). exact H.
Qed.

Lemma tokenize_digit c s :
  is_digit c = true ->
  tokenize (String c s)
  = ts ← tokenize s;
    Some (match ts with
          | TNum d :: ts' => TNum (String c d) :: ts'
          | _ => TNum (String c EmptyString) :: ts
          end).
Proof.
  destruct c as [[|] [|] [|] [|] [|] [|] [|] [|]]; intros H;
    try (vm_compute in H; discriminate H); reflexivity.
Qed.

Lemma tokenize_digits c s :
  all_chars is_digit (String c s) = true ->
  tokenize (String c s) = Some [TNum (String c s)].
Proof.
  revert c; induction s as [|c' s IH]; intros c H; simpl in H;
    apply andb_prop in H as [Hc Hs]; rewrite (tokenize_digit _ _ Hc).
  - reflexivity.
  - rewrite (IH c' Hs). reflexivity.
Qed.

Lemma py_eval_plus c s v :
  all_chars is_digit (String c s) = true ->
  literal (String c s) = Some v ->
  py_eval (String "+" (String c s)) = Ok v.
Proof.
  intros Hd Hl. unfold py_eval.
  replace (tokenize (String "+" (String c s)))
    with (Some [TPlus; TNum (String c s)]).
  - cbn -[literal]. rewrite Hl. reflexivity.
  - change (tokenize (String "+" (String c s)))
      with (ts ← tokenize (String c s); Some (TPlus :: ts)).
    rewrite (tokenize_digits _ _ Hd). reflexivity.
Qed.

Lemma py_eval_minus c s v :
  all_chars is_digit (String c s) = true ->
  literal (String c s) = Some v ->
  py_eval (String "-" (String c s)) = Ok (- v).
Proof.
  intros Hd Hl. unfold py_eval.
  replace (tokenize (String "-" (String c s)))
    with (Some [TMinus; TNum (String c s)]).
  - cbn -[literal]. rewrite Hl. reflexivity.
  - change (tokenize (String "-" (String c s)))
      with (ts ← tokenize (String c s); Some (TMinus :: ts)).
    rewrite (tokenize_digits _ _ Hd). reflexivity.
Qed.

Lemma app_empty_r s : s +:+ "" = s.
Proof.
  induction s as [|c s IH]; [reflexivity|].
  change (String c (s +:+ "") = String c s). now rewrite IH.
Qed.

Lemma head_map_app {A B} (f : A -> B) l l' x :
  head l = Some x -> head (map f l ++ l') = Some (f x).
Proof. destruct l; simpl; intros [= ->]; reflexivity. Qed.

Lemma plus_splits_stop p rest :
  match rest with
  | EmptyString => True
  | String c _ => p c = false
  end ->
  plus_splits p rest = [].
Proof. destruct rest as [|c r]; simpl; [reflexivity | intros ->; reflexivity]. Qed.

Lemma plus_splits_head p c s rest :
  all_chars p (String c s) = true ->
  match rest with
  | EmptyString => True
  | String c' _ => p c' = false
  end ->
  head (plus_splits p (String c s +:+ rest)) = Some (String c s, rest).
Proof.
  intros H Hrest. revert c H; induction s as [|c' s IH]; intros c H;
    simpl in H; apply andb_prop in H as [Hc Hs].
  - change (String c "" +:+ rest) with (String c rest).
    cbn [plus_splits]. rewrite Hc, (plus_splits_stop p rest Hrest). reflexivity.
  - change (String c (String c' s) +:+ rest)
      with (String c (String c' s +:+ rest)).
    cbn [plus_splits]. rewrite Hc.
    apply (head_map_app (fun mr => (String c mr.1, mr.2)) _ _ (String c' s, rest)).
    apply (IH c' Hs).
Qed.

Lemma digit_is_signed s :
  all_chars is_digit s = true -> all_chars is_signed_char s = true.
Proof.
  induction s as [|c s IH]; simpl; [reflexivity|].
  intros H; apply andb_prop in H as [Hc Hs].
  unfold is_signed_char at 1. rewrite Hc, (IH Hs). reflexivity.
Qed.

Lemma re_match_base_offset_sign c b s r :
  all_chars is_digit (String b s) = true ->
  is_digit c = false ->
  all_chars is_signed_char (String c r) = true ->
  re_match_base_offset (String b s +:+ String c r) = Some (String b s, String c r).
Proof.
  intros Hb Hc Hr. unfold re_match_base_offset.
  pose proof (plus_splits_head is_digit b s (String c r) Hb Hc) as H1.
  destruct (plus_splits is_digit (String b s +:+ String c r)) as [|x l];
    [discriminate|].
  simpl in H1. injection H1 as ->.
  cbn [flat_map fst snd].
  pose proof (plus_splits_head is_signed_char c r "" Hr I) as H2.
  rewrite app_empty_r in H2.
  apply (head_map_app (fun mr2 => (String b s, mr2.1)) _ _ _ H2).
Qed.

Lemma isdigit_app_false c b s r :
  is_digit c = false -> isdigit (String b s +:+ String c r) = false.
Proof.
  intros Hc. change (String b s +:+ String c r) with (String b (s +:+ String c r)).
  unfold isdigit. change (String b (s +:+ String c r)) with (String b s +:+ String c r).
  rewrite all_chars_app. simpl all_chars at 2. rewrite Hc.
  rewrite andb_false_r. reflexivity.
Qed.

(** ** The evaluator of [py_eval] *)

(** The parser does not depend on its fuel once there is more fuel than
    tokens, and what it leaves is shorter than what it was given. *)
Lemma factor_fuel (n m : nat) (ts : list token) :
  (length ts < n)%nat -> (length ts < m)%nat ->
  factor n ts = factor m ts
  /\ (forall v r, factor n ts = Some (v, r) -> (length r < length ts)%nat).
Proof.
  revert m ts; induction n as [|n IH]; intros m ts Hn Hm; [lia|].
  destruct m as [|m]; [lia|].
  destruct ts as [|[d| | | |] r]; cbn [factor]; simpl in Hn, Hm.
  - split; [reflexivity | discriminate].
  - destruct r as [|[d'| | | |] r'].
    + split; [reflexivity|].
      intros v r. destruct (literal d); simpl; [intros [= _ <-]; simpl; lia | discriminate].
    + split; [reflexivity|].
      intros v r. destruct (literal d); simpl; [intros [= _ <-]; simpl; lia | discriminate].
    + split; [reflexivity|].
      intros v r. destruct (literal d); simpl; [intros [= _ <-]; simpl; lia | discriminate].
    + split; [reflexivity|].
      intros v r. destruct (literal d); simpl; [intros [= _ <-]; simpl; lia | discriminate].
    + split; [reflexivity|].
      intros v r. destruct (literal d); simpl; [intros [= _ <-]; simpl; lia | discriminate].
    + simpl in Hn, Hm.
      destruct (IH m r') as [E Hlen]; [lia | lia |].
      rewrite E. split; [reflexivity|].
      intros v r. destruct (literal d); simpl; [|discriminate].
      rewrite <- E.
      destruct (factor n r') as [[w r'']|] eqn:F; simpl; [|discriminate].
      intros [= _ <-]. specialize (Hlen w r'' eq_refl). simpl. lia.
  - destruct (IH m r) as [E Hlen]; [lia | lia |].
    split; [exact E|]. intros v r' F. specialize (Hlen v r' F). simpl; lia.
  - destruct (IH m r) as [E Hlen]; [lia | lia |].
    rewrite E. split; [reflexivity|].
    intros v r'. rewrite <- E.
    destruct (factor n r) as [[w r'']|] eqn:F; simpl; [|discriminate].
    intros [= _ <-]. specialize (Hlen w r'' eq_refl). simpl; lia.
  - split; [reflexivity | discriminate].
  - split; [reflexivity | discriminate].
Qed.

Lemma term_rest_fuel (n m : nat) (acc : val) (ts : list token) :
  (length ts < n)%nat -> (length ts < m)%nat ->
  term_rest n acc ts = term_rest m acc ts
  /\ (forall v r, term_rest n acc ts = Some (v, r) -> (length r <= length ts)%nat).
Proof.
  revert m acc ts; induction n as [|n IH]; intros m acc ts Hn Hm; [lia|].
  destruct m as [|m]; [lia|].
  destruct ts as [|[d| | | |] r]; cbn [term_rest];
    try (split; [reflexivity | intros v r0 [= _ <-]; lia]).
  simpl in Hn, Hm.
  destruct (factor_fuel n m r) as [E Hlen]; [lia | lia |].
  rewrite <- E.
  destruct (factor n r) as [[w r'']|] eqn:F; simpl;
    [|split; [reflexivity | discriminate]].
  specialize (Hlen w r'' eq_refl).
  destruct (IH m (val_mul acc w) r'') as [E' Hlen']; [lia | lia |].
  split; [exact E'|].
  intros v r0 H. specialize (Hlen' v r0 H). lia.
Qed.

Lemma term_fuel (n m : nat) (ts : list token) :
  (length ts < n)%nat -> (length ts < m)%nat ->
  term n ts = term m ts
  /\ (forall v r, term n ts = Some (v, r) -> (length r < length ts)%nat).
Proof.
  intros Hn Hm. unfold term.
  destruct (factor_fuel n m ts Hn Hm) as [E Hlen]. rewrite <- E.
  destruct (factor n ts) as [[w r']|] eqn:F; simpl;
    [|split; [reflexivity | discriminate]].
  specialize (Hlen w r' eq_refl).
  destruct (term_rest_fuel n m w r') as [E' Hlen']; [lia | lia |].
  split; [exact E'|].
  intros v r H. specialize (Hlen' v r H). lia.
Qed.

Lemma expr_rest_fuel (n m : nat) (acc : val) (ts : list token) :
  (length ts < n)%nat -> (length ts < m)%nat ->
  expr_rest n acc ts = expr_rest m acc ts.
Proof.
  revert m acc ts; induction n as [|n IH]; intros m acc ts Hn Hm; [lia|].
  destruct m as [|m]; [lia|].
  destruct ts as [|[d| | | |] r]; cbn [expr_rest]; try reflexivity;
    simpl in Hn, Hm;
    (destruct (term_fuel n m r) as [E Hlen]; [lia | lia |]);
    rewrite <- E;
    (destruct (term n r) as [[w r'']|] eqn:F; simpl; [|reflexivity]);
    specialize (Hlen w r'' eq_refl);
    apply IH; lia.
Qed.

(** More fuel than [py_eval] gives does not change the result of [expr]:
    [eval] raises SyntaxError for a syntax error only. *)
Lemma expr_fuel (n : nat) (ts : list token) :
  (length ts < n)%nat -> expr n ts = expr (S (length ts)) ts.
Proof.
  intros Hn. unfold expr.
  destruct (term_fuel n (S (length ts)) ts) as [E Hlen]; [lia | lia |].
  rewrite <- E.
  destruct (term n ts) as [[w r]|] eqn:F; [|reflexivity].
  specialize (Hlen w r eq_refl).
  change (expr_rest n w r = expr_rest (S (length ts)) w r).
  apply expr_rest_fuel; lia.
Qed.

(** ** Positions *)

(** The tokens of the specification's examples. *)
Example parse_pos_examples :
  parse_pos "123" = Ok (Pos.mk 123 0)
  /\ parse_pos "123+45" = Ok (Pos.mk 123 45)
  /\ parse_pos "123-7" = Ok (Pos.mk 123 (-7))
  /\ parse_pos "*12" = Ok (Pos.mk (-1) 12)
  /\ parse_pos "-5" = Ok (Pos.mk 1 (-5))
  /\ parse_pos "abc" = Raise (InvalidInputError "invalid_position_string_abc").
Proof. repeat split; reflexivity. Qed.

(** A token that starts with none of the characters [0-9], [+], [-], [*]
    raises InvalidInputError with the token in its message. *)
Lemma parse_pos_rejects (c : ascii) (s : string) :
  is_anchor_char c = false ->
  parse_pos (String c s)
  = Raise (InvalidInputError ("invalid_position_string_" +:+ String c s)).
Proof.
  intros Hc. unfold is_anchor_char in Hc.
  apply orb_false_elim in Hc as [Hstar Hs].
  assert (Hd : is_digit c = false).
  { unfold is_signed_char in Hs.
    apply orb_false_elim in Hs as [Hs _]. now apply orb_false_elim in Hs as [Hs _]. }
  unfold parse_pos, isdigit, re_match_base_offset, re_match_anchor.
  cbn [all_chars plus_splits]. unfold is_anchor_char at 1.
  rewrite Hd, Hstar, Hs. reflexivity.
Qed.

(** C1 (the code departs from the claim at the token "12a"): a token that
    is none of the three shapes is not always rejected with InvalidInput.
    [re.match] accepts a prefix and gives digits back, so "12a" is parsed as
    base 1 with offset 2 and "123+45abc" as base 123 with offset 45; "5+"
    reaches [eval] and raises SyntaxError. *)
Theorem parse_pos_accepts_prefix :
  parse_pos "12a" = Ok (Pos.mk 1 2)
  /\ parse_pos "123+45abc" = Ok (Pos.mk 123 45)
  /\ parse_pos "5+" = Raise SyntaxError.
Proof. repeat split; reflexivity. Qed.

(** C2, as stated, fails at base -1 with offset 0 (the position that
    [parse_pos] returns for "*0"): it is rendered as "-1", which parses to
    base 1 with offset -1. *)
Lemma repr_parse_negative_base :
  Pos.tpos (Pos.mk (-1) 0) = 0
  /\ parse_pos "*0" = Ok (Pos.mk (-1) 0)
  /\ Pos.repr (Pos.mk (-1) 0) = "-1"
  /\ parse_pos (Pos.repr (Pos.mk (-1) 0)) = Ok (Pos.mk 1 (-1))
  /\ parse_pos (Pos.repr (Pos.mk (-1) 0)) <> Ok (Pos.mk (-1) 0).
Proof. repeat split; try reflexivity. discriminate. Qed.

(** C2 (amended): for every position whose base is not negative, with a
    zero or a non-zero offset, parsing the rendered string gives back the
    same base and offset. *)
Theorem repr_parse_roundtrip (p : Pos.obj) :
  0 <= Pos.pos p -> parse_pos (Pos.repr p) = Ok p.
Proof.
  destruct p as [b o]; simpl; intros Hb.
  destruct (str_Z_digits b Hb) as (cb & sb & Eb & Hdb).
  unfold Pos.repr, parse_pos; simpl Pos.pos; simpl Pos.tpos.
  destruct o as [|q|q].
  - (* on an exonic base *)
    simpl. rewrite (isdigit_str_Z b Hb), (int_str_Z b Hb). reflexivity.
  - (* downstream of the exon boundary *)
    replace (Z.pos q <? 0) with false by reflexivity.
    replace (Z.pos q >? 0) with true by reflexivity.
    replace (b <? 0) with false by (symmetry; apply Z.ltb_ge; exact Hb).
    destruct (str_Z_digits (Z.pos q)) as (cq & sq & Eq & Hdq); [lia|].
    rewrite Eb. change ("+" +:+ str_Z (Z.pos q)) with (String "+" (str_Z (Z.pos q))).
    rewrite Eq.
    rewrite isdigit_app_false by reflexivity.
    rewrite re_match_base_offset_sign;
      [| exact Hdb | reflexivity
       | change (all_chars is_signed_char (String "+" (String cq sq)))
           with (all_chars is_signed_char (String cq sq));
         apply digit_is_signed; exact Hdq ].
    rewrite (py_eval_plus cq sq (Z.pos q) Hdq)
      by (rewrite <- Eq; apply literal_str_Z).
    simpl. rewrite <- Eb, (int_str_Z b Hb). reflexivity.
  - (* upstream of the exon boundary *)
    replace (Z.neg q <? 0) with true by reflexivity.
    destruct (str_Z_digits (Z.pos q)) as (cq & sq & Eq & Hdq); [lia|].
    rewrite str_Z_neg, Eb, Eq.
    rewrite isdigit_app_false by reflexivity.
    rewrite re_match_base_offset_sign;
      [| exact Hdb | reflexivity
       | change (all_chars is_signed_char (String "-" (String cq sq)))
           with (all_chars is_signed_char (String cq sq));
         apply digit_is_signed; exact Hdq ].
    rewrite (py_eval_minus cq sq (Z.pos q) Hdq)
      by (rewrite <- Eq; apply literal_str_Z).
    simpl. rewrite <- Eb, (int_str_Z b Hb). reflexivity.
Qed.

Lemma repr_parse_roundtrip_witness :
  0 <= Pos.pos (Pos.mk 123 (-7))
  /\ parse_pos (Pos.repr (Pos.mk 123 (-7))) = Ok (Pos.mk 123 (-7)).
Proof.
  split; [simpl; lia | apply (repr_parse_roundtrip (Pos.mk 123 (-7))); simpl; lia].
Defined.

(** The parsed position is also equal to the original for [__eq__]. *)
Lemma Pos_eq_refl (p : Pos.obj) : Pos.eq p p = true.
Proof. unfold Pos.eq. now rewrite !Z.eqb_refl. Qed.

(** C10: [add n] followed by [subtract n] restores a position whose offset
    is 0, and one whose offset is non-zero and stays non-zero after the
    addition; when the non-zero offset equals [- n], [add n] zeroes the
    offset and [subtract n] then changes the base, which gives the original
    base minus [n] with offset 0, a position different from the original. *)
Theorem add_subtract_inverse (p : Pos.obj) (n : Z) :
  (Pos.tpos p = 0 -> Pos.subtract (Pos.add p n) n = p)
  /\ (Pos.tpos p <> 0 -> Pos.tpos p + n <> 0 ->
      Pos.subtract (Pos.add p n) n = p)
  /\ (Pos.tpos p <> 0 -> Pos.tpos p = - n ->
      Pos.add p n = Pos.mk (Pos.pos p) 0
      /\ Pos.subtract (Pos.add p n) n = Pos.mk (Pos.pos p - n) 0
      /\ Pos.subtract (Pos.add p n) n <> p).
Proof.
  destruct p as [b o]; unfold Pos.add, Pos.subtract; simpl.
  split; [|split].
  - intros ->. simpl. f_equal. lia.
  - intros Ho Hn.
    destruct (Z.eqb_spec o 0) as [|_]; [contradiction|]. simpl.
    destruct (Z.eqb_spec (o + n) 0) as [|_]; [contradiction|].
    f_equal. lia.
  - intros Ho ->.
    destruct (Z.eqb_spec (- n) 0) as [|_]; [contradiction|]. simpl.
    replace (- n + n) with 0 by lia. simpl.
    repeat split. intros [= Hb Hz]. lia.
Qed.

Lemma add_subtract_inverse_witness :
  Pos.subtract (Pos.add (Pos.mk 10 0) 3) 3 = Pos.mk 10 0
  /\ Pos.subtract (Pos.add (Pos.mk 10 5) 3) 3 = Pos.mk 10 5
  /\ Pos.subtract (Pos.add (Pos.mk 10 (-3)) 3) 3 = Pos.mk 7 0.
Proof.
  split; [|split].
  - apply (proj1 (add_subtract_inverse (Pos.mk 10 0) 3)). reflexivity.
  - apply (proj1 (proj2 (add_subtract_inverse (Pos.mk 10 5) 3)));
      simpl; lia.
  - apply (proj2 (proj2 (add_subtract_inverse (Pos.mk 10 (-3)) 3)));
      simpl; lia.
Defined.

(** ** Region annotations *)

(** C8: the direction of each flank of an intergenic site follows from the
    strand of that flank's gene alone: the 5' flank is "downstream" exactly
    on strand "+" and "upstream" on any other known strand, the 3' flank is
    "downstream" exactly on strand "-" and "upstream" on any other known
    strand, and a flank of unknown strand has no direction, so that its text
    is the distance alone. *)
Theorem intergenic_flank_direction
    (n5 n3 : option string) (d5 d3 : Z) (s5 s3 : option string) :
  let a := RegIntergenicAnno.mk n5 (Some d5) s5 n3 (Some d3) s3 in
  (RegIntergenicAnno.e5_stream a = Some "downstream" <-> s5 = Some "+")
  /\ (RegIntergenicAnno.e5_stream a = Some "upstream"
      <-> exists s, s5 = Some s /\ s <> "+")
  /\ (RegIntergenicAnno.e5_stream a = None <-> s5 = None)
  /\ (RegIntergenicAnno.e3_stream a = Some "downstream" <-> s3 = Some "-")
  /\ (RegIntergenicAnno.e3_stream a = Some "upstream"
      <-> exists s, s3 = Some s /\ s <> "-")
  /\ (RegIntergenicAnno.e3_stream a = None <-> s3 = None)
  /\ RegIntergenicAnno.format0 a
     = Ok ("intergenic_between_" +:+ pct_s n5 +:+ "(" +:+ flank_text "+" d5 s5
             +:+ ")_and_" +:+ pct_s n3 +:+ "(" +:+ flank_text "-" d3 s3 +:+ ")")
  /\ flank_text "+" d5 None = str_Z d5 +:+ "_bp"
  /\ flank_text "-" d3 None = str_Z d3 +:+ "_bp".
Proof.
  intros a; subst a.
  unfold RegIntergenicAnno.e5_stream, RegIntergenicAnno.e3_stream; simpl.
  repeat split.
  - destruct s5 as [s|]; [|discriminate].
    destruct (String.eqb_spec s "+"); [congruence | discriminate].
  - intros ->. reflexivity.
  - destruct s5 as [s|]; [|discriminate].
    destruct (String.eqb_spec s "+"); [discriminate | eauto].
  - intros (s & -> & Hs). destruct (String.eqb_spec s "+"); [contradiction | reflexivity].
  - destruct s5 as [s|]; [|reflexivity].
    destruct (String.eqb s "+"); discriminate.
  - intros ->. reflexivity.
  - destruct s3 as [s|]; [|discriminate].
    destruct (String.eqb_spec s "-"); [congruence | discriminate].
  - intros ->. reflexivity.
  - destruct s3 as [s|]; [|discriminate].
    destruct (String.eqb_spec s "-"); [discriminate | eauto].
  - intros (s & -> & Hs). destruct (String.eqb_spec s "-"); [contradiction | reflexivity].
  - destruct s3 as [s|]; [|reflexivity].
    destruct (String.eqb s "-"); discriminate.
  - intros ->. reflexivity.
  - unfold RegIntergenicAnno.format0, flank_text, flank_direction,
      RegIntergenicAnno.e5_stream, RegIntergenicAnno.e3_stream, format_group.
    simpl.
    destruct s5 as [x|], s3 as [y|]; simpl;
      try destruct (String.eqb x "+"); try destruct (String.eqb y "-");
      reflexivity.
Qed.

Lemma intergenic_flank_direction_witness :
  RegIntergenicAnno.e5_stream
    (RegIntergenicAnno.mk (Some "A") (Some 1200) (Some "+")
                          (Some "B") (Some 35) (Some "+"))
  = Some "downstream"
  /\ RegIntergenicAnno.e3_stream
       (RegIntergenicAnno.mk (Some "A") (Some 1200) (Some "+")
                             (Some "B") (Some 35) (Some "+"))
     = Some "upstream".
Proof.
  pose proof (intergenic_flank_direction
                (Some "A") (Some "B") 1200 35 (Some "+") (Some "+")) as H.
  simpl in H. destruct H as (H5 & _ & _ & _ & H3 & _).
  split.
  - apply H5. reflexivity.
  - apply H3. exists "+". split; [reflexivity | discriminate].
Defined.

(** The three examples of the specification for the 5' flank. *)
Example intergenic_format_examples :
  RegIntergenicAnno.format0
    (RegIntergenicAnno.mk (Some "A") (Some 1200) (Some "+") (Some "B") (Some 35) None)
  = Ok "intergenic_between_A(1200_bp_downstream)_and_B(35_bp)"
  /\ RegIntergenicAnno.format0
       (RegIntergenicAnno.mk (Some "A") (Some 1200) (Some "-") (Some "B") (Some 35) (Some "-"))
     = Ok "intergenic_between_A(1200_bp_upstream)_and_B(35_bp_downstream)"
  /\ RegIntergenicAnno.format0
       (RegIntergenicAnno.mk (Some "A") (Some 1200) None (Some "B") (Some 35) (Some "+"))
     = Ok "intergenic_between_A(1200_bp)_and_B(35_bp_upstream)".
Proof. repeat split; reflexivity. Qed.




(** What a precedence list means: the first rule that holds decides, and
    the default applies when none holds. *)
Lemma first_label_first (rules1 rules2 : list (bool * string)) (l d : string) :
  Forall (fun r => r.1 = false) rules1 ->
  first_label (rules1 ++ (true, l) :: rules2) d = l.
Proof.
  induction 1 as [|[c l'] rules1 Hc _ IH]; simpl; [reflexivity|].
  simpl in Hc. rewrite Hc. exact IH.
Qed.

Lemma first_label_default (rules : list (bool * string)) (d : string) :
  Forall (fun r => r.1 = false) rules -> first_label rules d = d.
Proof.
  induction 1 as [|[c l'] rules Hc _ IH]; simpl; [reflexivity|].
  simpl in Hc. rewrite Hc. exact IH.
Qed.

(** C5: the consequence label of a span and of a single site is the label
    of the first rule, in the order of the specification, whose condition
    holds, and "Unclassified" when none does. *)
Theorem csqn_precedence (s : RegSpanAnno.obj) (a : RegAnno.obj) :
  RegSpanAnno.csqn s = first_label (span_csqn_rules s) "Unclassified"
  /\ RegAnno.csqn a = first_label (site_csqn_rules a) "Unclassified".
Proof.
  split.
  - unfold RegSpanAnno.csqn, span_csqn_rules, first_label, attached_with,
      RegSpanAnno.nonempty.
    destruct (RegSpanAnno.intergenic s) as [ig|];
      [destruct (RegSpanAnno.ig_spanning ig)|];
      destruct (RegSpanAnno.splice_donors s) as [[|? ?]|];
      destruct (RegSpanAnno.splice_acceptors s) as [[|? ?]|];
      reflexivity.
  - reflexivity.
Qed.

(** Two examples of the precedence: an intronic site inside a UTR is
    "Intronic"; a span with an intergenic attachment that spans a gene and
    with a splice donor is "SpliceDonor". *)
Example csqn_examples :
  RegAnno.csqn
    (RegAnno.mk false None false (Some "5") true (Some 1) (Some 2)
                None None None None None None None)
  = "Intronic"
  /\ RegSpanAnno.csqn
       (RegSpanAnno.mk RegAnno.init RegAnno.init []
          (Some [(2, "chr1", 1000)]) None None None None
          (Some (RegSpanAnno.mk_intergenic RegIntergenicAnno.init
                   [Gene.mk "TP53"]))
          None)
     = "SpliceDonor".
Proof. split; reflexivity. Qed.

(** C4, as stated, fails for two sites of equal description of which only
    the second carries a transcript reference: the code calls them the same
    region. *)
Lemma same_region_one_transcript :
  let tr := Transcript.mk "TP53" "" [] "" "+" "chr17" 100 200 in
  let r1 := RegAnno.init in
  let r2 := RegAnno.mk false None false None false None None None None
                       None (Some tr) None None None in
  same_region r1 r2 = Ok true
  /\ RegAnno.t r1 = None
  /\ RegAnno.t r2 = Some tr
  /\ ~ (same_region r1 r2 = Ok true
        <-> (exists s, RegAnno.format r1 false = Ok s
                       /\ RegAnno.format r2 false = Ok s)
            /\ ((RegAnno.t r1 = None /\ RegAnno.t r2 = None)
                \/ (exists x, RegAnno.t r1 = Some x /\ RegAnno.t r2 = Some x))).
Proof.
  simpl. repeat split.
  intros [H _]. destruct (H eq_refl) as [_ [[_ H2] | (x & H1 & _)]]; discriminate.
Qed.

(** C4 (amended): two single-site annotations are the same region exactly
    when their formatted descriptions are equal and, in addition, at least
    one of them carries no transcript reference or both reference the same
    transcript; when exactly one of the two carries a transcript reference,
    equal descriptions make them the same region. *)
Theorem same_region_iff (r1 r2 : RegAnno.obj) :
  same_region r1 r2 = Ok true
  <-> (exists s, RegAnno.format r1 false = Ok s
                 /\ RegAnno.format r2 false = Ok s)
      /\ (RegAnno.t r1 = None \/ RegAnno.t r2 = None
          \/ RegAnno.t r1 = RegAnno.t r2).
Proof.
  unfold same_region.
  destruct (RegAnno.format r1 false) as [s1|e1]; simpl.
  2:{ split; [discriminate | intros [(s & H & _) _]; discriminate]. }
  destruct (RegAnno.format r2 false) as [s2|e2]; simpl.
  2:{ split; [discriminate | intros [(s & _ & H) _]; discriminate]. }
  split.
  - intros [= H]. apply andb_prop in H as [Hs Ht].
    apply String.eqb_eq in Hs; subst s2.
    split; [eauto|].
    destruct (RegAnno.t r1) as [x|]; [|auto].
    destruct (RegAnno.t r2) as [y|]; [|auto].
    simpl in Ht. apply bool_decide_eq_true in Ht. auto.
  - intros [(s & [= ->] & [= ->]) Ht]. rewrite String.eqb_refl. simpl.
    f_equal.
    destruct (RegAnno.t r1) as [x|], (RegAnno.t r2) as [y|]; try reflexivity.
    destruct Ht as [H | [H | H]]; try discriminate H.
    rewrite (bool_decide_eq_true_2 _ H). reflexivity.
Qed.

Lemma same_region_iff_witness :
  same_region RegAnno.init
    (RegAnno.mk false None false None false None None None None None
       (Some (Transcript.mk "TP53" "" [] "" "+" "chr17" 100 200))
       None None None)
  = Ok true.
Proof.
  apply (proj2 (same_region_iff RegAnno.init
    (RegAnno.mk false None false None false None None None None None
       (Some (Transcript.mk "TP53" "" [] "" "+" "chr17" 100 200))
       None None None))).
  split.
  - exists "inside_[]". split; reflexivity.
  - left. reflexivity.
Defined.

(** ** Records *)

(** The info string after [prepend_info]. *)
Lemma prepend_info_info (self : Record.obj) (app : string) :
  Record.info (Record.prepend_info self app)
  = if Record.info_set self then app +:+ ";" +:+ Record.info self else app.
Proof. unfold Record.prepend_info. destruct (Record.info_set self); reflexivity. Qed.

Lemma prepend_info_prepended (self : Record.obj) (app : string) :
  Record.info (Record.prepend_info self app)
  = info_prepended app (Record.info self).
Proof.
  unfold Record.prepend_info, Record.info_set, info_prepended.
  destruct (Record.info self) as [|c i]; [reflexivity|].
  cbn [str_truthy andb].
  change (String.eqb (String c i) "") with false. cbn [orb].
  destruct (String.eqb (String c i) "."); reflexivity.
Qed.

Lemma prepend_info_fields (self : Record.obj) (app : string) :
  Record.tname (Record.prepend_info self app) = Record.tname self
  /\ Record.chrm (Record.prepend_info self app) = Record.chrm self
  /\ Record.gene (Record.prepend_info self app) = Record.gene self
  /\ Record.strand (Record.prepend_info self app) = Record.strand self
  /\ Record.reg (Record.prepend_info self app) = Record.reg self
  /\ Record.is_var (Record.prepend_info self app) = Record.is_var self
  /\ Record.csqn (Record.prepend_info self app) = Record.csqn self
  /\ Record.co (Record.prepend_info self app) = Record.co self.
Proof.
  unfold Record.prepend_info.
  destruct (Record.info_set self); repeat split; reflexivity.
Qed.

(** [len(set(l))] is 0 for the empty list only. *)
Lemma distinct_zero (l : list string) : Record.distinct l = 0%nat <-> l = [].
Proof.
  unfold Record.distinct. split.
  - intros H. apply size_empty_inv in H.
    destruct l as [|x l]; [reflexivity|].
    exfalso. apply (not_elem_of_empty (C := gset string) x).
    rewrite <- H. set_solver.
  - intros ->. reflexivity.
Qed.

(** [len(set(l))] is 1 exactly when [l] repeats one tag. *)
Lemma distinct_one (l : list string) :
  Record.distinct l = 1%nat
  <-> exists tag l', l = tag :: l' /\ forall x, x ∈ l -> x = tag.
Proof.
  unfold Record.distinct. split.
  - intros H. apply size_1_elem_of in H as [y Hy].
    destruct l as [|x l].
    + exfalso. apply (not_elem_of_empty (C := gset string) y).
      change (y ∈ (list_to_set [] : gset string)). rewrite Hy. set_solver.
    + exists x, l. split; [reflexivity|].
      assert (Hin : forall z, z ∈ x :: l -> z = y).
      { intros z Hz.
        assert (z ∈ (list_to_set (x :: l) : gset string)) as Hz'
          by (apply elem_of_list_to_set; exact Hz).
        rewrite Hy in Hz'. apply elem_of_singleton in Hz'. exact Hz'. }
      intros z Hz. rewrite (Hin z Hz). symmetry. apply Hin. constructor.
  - intros (tag & l' & -> & H).
    assert ((list_to_set (tag :: l') : gset string) = {[tag]}) as ->.
    { apply set_eq. intros z. rewrite elem_of_list_to_set, elem_of_singleton.
      split; [apply H | intros ->; set_solver]. }
    apply size_singleton.
Qed.

(** C3: rendering a variant record puts a consequence token in front of the
    info: "CSQN=Unclassified" when no tag was accumulated, "CSQN=<tag>" when
    the tags are one tag, possibly repeated, and "CSQN=Multi:" followed by
    the accumulated tags joined by commas, in their order, when there are
    several distinct tags.  The token becomes the info when there was none
    (an empty info or the placeholder "."), and is followed by a semicolon
    and the previous info otherwise; no other field of the record changes.
    Rendering a record that is not a variant leaves the record untouched.
    [formats] returns the record so obtained, with the metadata of the
    transcript appended. *)
Theorem formats_csqn_tag (self : Record.obj) :
  (Record.is_var self = false -> Record.formats_csqn self = self)
  /\ (Record.is_var self = true -> Record.csqn self = [] ->
      Record.formats_csqn self = Record.prepend_info self "CSQN=Unclassified"
      /\ Record.info (Record.formats_csqn self)
         = info_prepended "CSQN=Unclassified" (Record.info self))
  /\ (Record.is_var self = true -> Record.distinct (Record.csqn self) = 1%nat ->
      exists tag,
        Record.csqn self <> []
        /\ (forall x, x ∈ Record.csqn self -> x = tag)
        /\ Record.formats_csqn self
           = Record.prepend_info self ("CSQN=" +:+ tag)
        /\ Record.info (Record.formats_csqn self)
           = info_prepended ("CSQN=" +:+ tag) (Record.info self))
  /\ (Record.is_var self = true ->
      (1 < Record.distinct (Record.csqn self))%nat ->
      Record.formats_csqn self
      = Record.prepend_info self
          ("CSQN=Multi:" +:+ join "," (Record.csqn self))
      /\ Record.info (Record.formats_csqn self)
         = info_prepended ("CSQN=Multi:" +:+ join "," (Record.csqn self))
                          (Record.info self))
  /\ (Record.tname (Record.formats_csqn self) = Record.tname self
      /\ Record.chrm (Record.formats_csqn self) = Record.chrm self
      /\ Record.gene (Record.formats_csqn self) = Record.gene self
      /\ Record.strand (Record.formats_csqn self) = Record.strand self
      /\ Record.reg (Record.formats_csqn self) = Record.reg self
      /\ Record.is_var (Record.formats_csqn self) = Record.is_var self
      /\ Record.csqn (Record.formats_csqn self) = Record.csqn self
      /\ Record.co (Record.formats_csqn self) = Record.co self)
  /\ (forall gseq line self',
        Record.formats self gseq = Ok (line, self') ->
        self' = Record.formats_meta (Record.formats_csqn self)).
Proof.
  split; [|split; [|split; [|split; [|split]]]].
  - unfold Record.formats_csqn. intros ->. reflexivity.
  - unfold Record.formats_csqn. intros -> ->.
    split; [reflexivity | apply prepend_info_prepended].
  - unfold Record.formats_csqn. intros -> H. pose proof H as H1.
    apply distinct_one in H1 as (tag & l' & E & Hall).
    exists tag. rewrite E in *. rewrite H. cbn [Nat.eqb].
    split; [discriminate|]. split; [exact Hall|].
    split; [reflexivity | apply prepend_info_prepended].
  - unfold Record.formats_csqn. intros -> H.
    destruct (Record.csqn self) as [|c0 l] eqn:E.
    + vm_compute in H. lia.
    + destruct (Nat.eqb_spec (Record.distinct (c0 :: l)) 1); [lia|].
      split; [reflexivity | apply prepend_info_prepended].
  - assert (H : Record.formats_csqn self = self
                 \/ exists app,
                      Record.formats_csqn self = Record.prepend_info self app).
    { unfold Record.formats_csqn.
      destruct (Record.is_var self); [right | left; reflexivity].
      destruct (Record.csqn self) as [|c0 l]; [eexists; reflexivity|].
      destruct (Record.distinct (c0 :: l) =? 1)%nat; eexists; reflexivity. }
    destruct H as [-> | [app ->]];
      [repeat split; reflexivity | apply prepend_info_fields].
  - intros gseq line self'. unfold Record.formats.
    destruct (Record.reg_format _); simpl; [intros [= _ <-]; reflexivity | discriminate].
Qed.

Lemma formats_csqn_tag_witness :
  Record.info
    (Record.formats_csqn
       (Record.mk "." "." "." "." Record.RegUnset "." true [] Record.no_coords))
  = "CSQN=Unclassified"
  /\ Record.info
       (Record.formats_csqn
          (Record.mk "." "." "." "." Record.RegUnset "x=1" true []
                     Record.no_coords))
     = "CSQN=Unclassified;x=1"
  /\ (exists tag,
        (forall x, x ∈ ["Missense"; "Missense"] -> x = tag)
        /\ Record.info
             (Record.formats_csqn
                (Record.mk "." "." "." "." Record.RegUnset "x=1" true
                           ["Missense"; "Missense"] Record.no_coords))
           = "CSQN=" +:+ tag +:+ ";x=1")
  /\ Record.info
       (Record.formats_csqn
          (Record.mk "." "." "." "." Record.RegUnset "" true
                     ["Missense"; "SpliceDonor"] Record.no_coords))
     = "CSQN=Multi:Missense,SpliceDonor"
  /\ Record.info
       (Record.formats_csqn
          (Record.mk "." "." "." "." Record.RegUnset "x=1" true
                     ["Missense"; "SpliceDonor"] Record.no_coords))
     = "CSQN=Multi:Missense,SpliceDonor;x=1"
  /\ Record.formats_csqn
       (Record.mk "." "." "." "." Record.RegUnset "x=1" false
                  ["Missense"] Record.no_coords)
     = Record.mk "." "." "." "." Record.RegUnset "x=1" false
                 ["Missense"] Record.no_coords.
Proof.
  split; [|split; [|split; [|split; [|split]]]].
  - destruct (proj1 (proj2 (formats_csqn_tag
      (Record.mk "." "." "." "." Record.RegUnset "." true [] Record.no_coords)))
      eq_refl eq_refl) as [_ H].
    exact H.
  - destruct (proj1 (proj2 (formats_csqn_tag
      (Record.mk "." "." "." "." Record.RegUnset "x=1" true [] Record.no_coords)))
      eq_refl eq_refl) as [_ H].
    exact H.
  - destruct (proj1 (proj2 (proj2 (formats_csqn_tag
      (Record.mk "." "." "." "." Record.RegUnset "x=1" true
                 ["Missense"; "Missense"] Record.no_coords)))))
      as (tag & _ & Hall & _ & Hinfo); [reflexivity | reflexivity |].
    exists tag. split; [exact Hall | exact Hinfo].
  - destruct (proj1 (proj2 (proj2 (proj2 (formats_csqn_tag
      (Record.mk "." "." "." "." Record.RegUnset "" true
                 ["Missense"; "SpliceDonor"] Record.no_coords))))))
      as [_ H]; [reflexivity | vm_compute; lia |].
    exact H.
  - destruct (proj1 (proj2 (proj2 (proj2 (formats_csqn_tag
      (Record.mk "." "." "." "." Record.RegUnset "x=1" true
                 ["Missense"; "SpliceDonor"] Record.no_coords))))))
      as [_ H]; [reflexivity | vm_compute; lia |].
    exact H.
  - apply (proj1 (formats_csqn_tag
      (Record.mk "." "." "." "." Record.RegUnset "x=1" false
                 ["Missense"] Record.no_coords))).
    reflexivity.
Defined.

(** The examples of the specification. *)
Example formats_csqn_examples :
  let r := fun csqn =>
             Record.mk "." "." "." "." Record.RegUnset "." true csqn
                       Record.no_coords in
  Record.info (Record.formats_csqn (r [])) = "CSQN=Unclassified"
  /\ Record.info (Record.formats_csqn (r ["Missense"])) = "CSQN=Missense"
  /\ Record.info (Record.formats_csqn (r ["Missense"; "Missense"]))
     = "CSQN=Missense"
  /\ Record.info (Record.formats_csqn (r ["Missense"; "SpliceDonor"]))
     = "CSQN=Multi:Missense,SpliceDonor"
  /\ Record.info
       (Record.formats_csqn
          (Record.mk "." "." "." "." Record.RegUnset "dbxref=1" true
                     ["Missense"] Record.no_coords))
     = "CSQN=Missense;dbxref=1".
Proof. repeat split; reflexivity. Qed.

Lemma csqn_append_info (self : Record.obj) (app : string) :
  Record.csqn (Record.append_info self app) = Record.csqn self.
Proof. unfold Record.append_info. destruct (Record.info_set self); reflexivity. Qed.

Lemma csqn_fold_append_info {A : Type} (f : A -> string) (l : list A)
    (st : bool * Record.obj) :
  Record.csqn
    (fold_left (fun (st : bool * Record.obj) (d : A) =>
                  (true, Record.append_info st.2 (f d))) l st).2
  = Record.csqn st.2.
Proof.
  revert st; induction l as [|d l IH]; intros st; simpl; [reflexivity|].
  rewrite IH. simpl. apply csqn_append_info.
Qed.

(** C6: on a span record whose transcript is known and which crosses the
    start or the end of the coding sequence, [set_splice] returns true; the
    tags it appends are, in this order, the splice donor and acceptor tags,
    then for [cross_start] CdsStart<action> on strand "+" and CdsStop<action>
    on strand "-", then for [cross_end] CdsStop<action> on strand "+" and
    CdsStart<action> on strand "-", where <action> is [csqn_action]. *)
Theorem set_splice_cds_boundary
    (self : Record.obj) (s : RegSpanAnno.obj) (t : Transcript.obj)
    (action csqn_action : string) :
  Record.reg self = Record.RegSpan s ->
  RegSpanAnno.t s = Some t ->
  RegSpanAnno.cross_start s = Some true \/ RegSpanAnno.cross_end s = Some true ->
  (exists self',
     Record.set_splice self action csqn_action = Ok (true, self')
     /\ Record.csqn self'
        = Record.csqn self
            ++ (if RegSpanAnno.nonempty (RegSpanAnno.splice_donors s)
                then ["SpliceDonor" +:+ csqn_action] else [])
            ++ (if RegSpanAnno.nonempty (RegSpanAnno.splice_acceptors s)
                then ["SpliceAcceptor" +:+ csqn_action] else [])
            ++ (if bool_decide (RegSpanAnno.cross_start s = Some true)
                then [cross_start_tag (Transcript.strand t) csqn_action] else [])
            ++ (if bool_decide (RegSpanAnno.cross_end s = Some true)
                then [cross_end_tag (Transcript.strand t) csqn_action] else []))
  /\ cross_start_tag "+" csqn_action = "CdsStart" +:+ csqn_action
  /\ cross_start_tag "-" csqn_action = "CdsStop" +:+ csqn_action
  /\ cross_end_tag "+" csqn_action = "CdsStop" +:+ csqn_action
  /\ cross_end_tag "-" csqn_action = "CdsStart" +:+ csqn_action.
Proof.
  intros Hreg Ht Hcross.
  split; [|repeat split].
  unfold Record.set_splice. rewrite Hreg.
  generalize (if str_truthy action then "_" +:+ action else action).
  clear action. intros action.
  unfold Record.set_splice_span. rewrite Ht.
  (* the splice donors *)
  match goal with
  | |- ex (fun _ => (let '(_, _) := ?X in _) = _ /\ _) =>
      remember X as st1 eqn:E1
  end.
  assert (H1 : Record.csqn st1.2
               = Record.csqn self
                   ++ (if RegSpanAnno.nonempty (RegSpanAnno.splice_donors s)
                       then ["SpliceDonor" +:+ csqn_action] else [])).
  { subst st1. destruct (RegSpanAnno.splice_donors s) as [[|d ds]|];
      rewrite ?csqn_fold_append_info; simpl; rewrite ?app_nil_r; reflexivity. }
  clear E1. destruct st1 as [e1 r1]. simpl in H1.
  (* the splice acceptors *)
  match goal with
  | |- ex (fun _ => (let '(_, _) := ?X in _) = _ /\ _) =>
      remember X as st2 eqn:E2
  end.
  assert (H2 : Record.csqn st2.2
               = Record.csqn r1
                   ++ (if RegSpanAnno.nonempty (RegSpanAnno.splice_acceptors s)
                       then ["SpliceAcceptor" +:+ csqn_action] else [])).
  { subst st2. destruct (RegSpanAnno.splice_acceptors s) as [[|d ds]|];
      rewrite ?csqn_fold_append_info; simpl; rewrite ?app_nil_r; reflexivity. }
  clear E2. destruct st2 as [e2 r2]. simpl in H2.
  (* the exons covered as a whole *)
  match goal with
  | |- ex (fun _ => (let '(_, _) := ?X in _) = _ /\ _) =>
      remember X as st3 eqn:E3
  end.
  assert (H3 : Record.csqn st3.2 = Record.csqn r2).
  { subst st3. destruct (RegSpanAnno.splice_both s) as [[|x xs]|];
      simpl; rewrite ?csqn_append_info; reflexivity. }
  clear E3. destruct st3 as [e3 r3]. simpl in H3.
  rewrite H1 in H2. rewrite H2 in H3. clear H1 H2.
  (* the start and the end of the coding sequence *)
  unfold cross_start_tag, cross_end_tag.
  destruct (RegSpanAnno.cross_start s) as [[|]|],
           (RegSpanAnno.cross_end s) as [[|]|];
    try (destruct Hcross; discriminate);
    simpl; destruct (String.eqb (Transcript.strand t) "+");
    simpl; eexists; (split; [reflexivity|]);
    rewrite ?csqn_append_info; simpl; rewrite ?csqn_append_info; simpl;
    rewrite H3, <- ?app_assoc; rewrite ?app_nil_r; reflexivity.
Qed.

Lemma set_splice_cds_boundary_witness :
  exists self',
    Record.set_splice
      (Record.mk "NM_1" "chr17" "TP53" "-"
         (Record.RegSpan
            (RegSpanAnno.mk RegAnno.init RegAnno.init [] None None None
               (Some true) None None
               (Some (Transcript.mk "TP53" "" [] "" "-" "chr17" 100 200))))
         "." true [] Record.no_coords)
      "deletion" "Deletion"
    = Ok (true, self')
    /\ Record.csqn self' = ["CdsStopDeletion"]
    /\ Record.info self' = "cds_stop_at_chr17:100_deletion".
Proof.
  destruct (set_splice_cds_boundary
    (Record.mk "NM_1" "chr17" "TP53" "-"
       (Record.RegSpan
          (RegSpanAnno.mk RegAnno.init RegAnno.init [] None None None
             (Some true) None None
             (Some (Transcript.mk "TP53" "" [] "" "-" "chr17" 100 200))))
       "." true [] Record.no_coords)
    (RegSpanAnno.mk RegAnno.init RegAnno.init [] None None None
       (Some true) None None
       (Some (Transcript.mk "TP53" "" [] "" "-" "chr17" 100 200)))
    (Transcript.mk "TP53" "" [] "" "-" "chr17" 100 200)
    "deletion" "Deletion" eq_refl eq_refl (or_introl eq_refl))
    as [(self' & H & Hc) _].
  exists self'. split; [exact H|]. split; [exact Hc|].
  vm_compute in H. injection H as <-. reflexivity.
Defined.

(** Both crossings on one span, on each strand. *)
Example set_splice_examples :
  let span := fun strand =>
    Record.mk "NM_1" "chr17" "TP53" strand
      (Record.RegSpan
         (RegSpanAnno.mk RegAnno.init RegAnno.init [] None None None
            (Some true) (Some true) None
            (Some (Transcript.mk "TP53" "" [] "" strand "chr17" 100 200))))
      "." true [] Record.no_coords in
  (r ← Record.set_splice (span "+") "" "Deletion"; Ok (r.1, Record.csqn r.2))
  = Ok (true, ["CdsStartDeletion"; "CdsStopDeletion"])
  /\ (r ← Record.set_splice (span "-") "" "Deletion"; Ok (r.1, Record.csqn r.2))
     = Ok (true, ["CdsStopDeletion"; "CdsStartDeletion"]).
Proof. split; reflexivity. Qed.

(** ** normalize_reg *)

(** C7, as stated, fails on its own example: the code checks the upper
    clamp first, so the warning for the end beyond the reference is written
    before the warning for the negative begin, whereas clamping the negative
    endpoints first writes them in the other order. *)
Lemma normalize_reg_upper_clamp_first :
  normalize_reg (fun _ : unit => 1000) (Query.mk (-10) 1050 tt)
  = (Query.mk 0 1000 tt,
     ["region end 1050 greater than chromosome length 1000, truncated.";
      "region beg %d negative, truncated to 0."])
  /\ normalize_reg_lower_first (fun _ : unit => 1000) (Query.mk (-10) 1050 tt)
     = (Query.mk 0 1000 tt,
        ["region beg %d negative, truncated to 0.";
         "region end 1050 greater than chromosome length 1000, truncated."])
  /\ normalize_reg (fun _ : unit => 1000) (Query.mk (-10) 1050 tt)
     <> normalize_reg_lower_first (fun _ : unit => 1000) (Query.mk (-10) 1050 tt).
Proof. repeat split; try reflexivity. discriminate. Qed.

Ltac case_compare :=
  repeat (match goal with
          | |- context [?a >? ?b] => destruct (Z.gtb_spec a b)
          | |- context [?a <? ?b] => destruct (Z.ltb_spec a b)
          | |- context [Z.eqb ?a ?b] => destruct (Z.eqb_spec a b)
          end;
          cbn [Query.beg Query.end_ Query.tok fst snd] in *;
          try lia).

(** C7 (amended): against a reference length that is not negative,
    [normalize_reg] clamps the begin and the end of a region into
    [0, reference length] and writes one warning, never an error, for each
    endpoint it clamps; the upper clamp of both endpoints is checked before
    the negative endpoints are clamped to 0, so the warnings of the upper
    clamp come first; endpoints inside the range are unchanged. *)
Theorem normalize_reg_clamps {Tok : Type} (reflen : Tok -> Z)
    (q : Query.obj Tok) :
  0 <= reflen (Query.tok q) ->
  let r := normalize_reg reflen q in
  Query.beg r.1 = clamp reflen (Query.beg q) q
  /\ Query.end_ r.1 = clamp reflen (Query.end_ q) q
  /\ Query.tok r.1 = Query.tok q
  /\ r.2 = upper_warnings reflen q ++ lower_warnings q
  /\ length r.2
     = Nat.add (if Z.eqb (Query.beg r.1) (Query.beg q) then 0%nat else 1%nat)
               (if Z.eqb (Query.end_ r.1) (Query.end_ q) then 0%nat else 1%nat)
  /\ (0 <= Query.beg q <= reflen (Query.tok q) -> Query.beg r.1 = Query.beg q)
  /\ (0 <= Query.end_ q <= reflen (Query.tok q) -> Query.end_ r.1 = Query.end_ q).
Proof.
  destruct q as [b e tk]; simpl. intros HL.
  unfold normalize_reg, upper_warnings, lower_warnings, clamp, err_warn.
  cbn [Query.beg Query.end_ Query.tok fst snd].
  case_compare; repeat split; try reflexivity; lia.
Qed.

Lemma normalize_reg_clamps_witness :
  0 <= 1000
  /\ Query.beg (normalize_reg (fun _ : unit => 1000) (Query.mk (-10) 1050 tt)).1 = 0
  /\ Query.end_ (normalize_reg (fun _ : unit => 1000) (Query.mk (-10) 1050 tt)).1
     = 1000
  /\ length (normalize_reg (fun _ : unit => 1000) (Query.mk (-10) 1050 tt)).2
     = 2%nat
  /\ normalize_reg (fun _ : unit => 1000) (Query.mk 10 990 tt)
     = (Query.mk 10 990 tt, []).
Proof.
  split; [lia|].
  destruct (normalize_reg_clamps (fun _ : unit => 1000) (Query.mk (-10) 1050 tt))
    as (Hb & He & _ & _ & Hn & _); [simpl; lia|].
  split; [exact Hb|]. split; [exact He|]. split; [exact Hn|].
  reflexivity.
Defined.

(** * Further properties of the code *)

(** ** Positions and introns *)

(** [same_intron] is symmetric and transitive, and a position is in the
    same intron as itself exactly when it lies off the exons (its offset is
    not 0). *)
Theorem same_intron_partial_equivalence (p q r : Pos.obj) :
  same_intron p q = same_intron q p
  /\ (same_intron p q = true -> same_intron q r = true ->
      same_intron p r = true)
  /\ (same_intron p p = true <-> Pos.tpos p <> 0).
Proof.
  destruct p as [pb po], q as [qb qo], r as [rb ro].
  unfold same_intron, Pos.included_minus; simpl.
  repeat split.
  - destruct (po <? 0), (qo <? 0);
      match goal with
      | |- context [?a =? ?b] => rewrite (Z.eqb_sym b a); destruct (a =? b)
      end;
      destruct (po =? 0), (qo =? 0); reflexivity.
  - intros H1 H2.
    destruct (Z.ltb_spec po 0), (Z.ltb_spec qo 0), (Z.ltb_spec ro 0),
             (Z.eqb_spec po 0), (Z.eqb_spec qo 0), (Z.eqb_spec ro 0);
      simpl in *; try lia;
      repeat match goal with
             | H : context [?a =? ?b] |- _ => destruct (Z.eqb_spec a b)
             | |- context [?a =? ?b] => destruct (Z.eqb_spec a b)
             end; simpl in *; try discriminate; try reflexivity; lia.
  - intros H Hz. subst po. simpl in H. rewrite andb_false_r in H. discriminate.
  - intros H. destruct (Z.eqb_spec po 0); [contradiction|].
    destruct (po <? 0); rewrite Z.eqb_refl; reflexivity.
Qed.

Lemma same_intron_partial_equivalence_witness :
  same_intron (Pos.mk 100 5) (Pos.mk 100 9) = true
  /\ same_intron (Pos.mk 101 (-2)) (Pos.mk 101 (-2)) = true.
Proof.
  split.
  - apply (proj1 (proj2 (same_intron_partial_equivalence
             (Pos.mk 100 5) (Pos.mk 101 (-3)) (Pos.mk 100 9))));
      reflexivity.
  - apply (proj2 (proj2 (same_intron_partial_equivalence
             (Pos.mk 101 (-2)) (Pos.mk 101 (-2)) (Pos.mk 101 (-2))))).
    simpl. lia.
Defined.

(** Off the exons, [included_minus] and [included_plus] are the two
    neighbouring bases that flank the position, one apart; on an exon both
    are the base itself.  A position counted downstream from base [b] and a
    position counted upstream from base [b + 1] are in the same intron. *)
Theorem intron_flanking_bases (p : Pos.obj) (b k j : Z) :
  (Pos.tpos p <> 0 -> Pos.included_plus p = Pos.included_minus p + 1)
  /\ (Pos.tpos p = 0 ->
      Pos.included_plus p = Pos.pos p /\ Pos.included_minus p = Pos.pos p)
  /\ (0 < k -> j < 0 -> same_intron (Pos.mk b k) (Pos.mk (b + 1) j) = true).
Proof.
  destruct p as [pb po].
  unfold same_intron, Pos.included_plus, Pos.included_minus; simpl.
  repeat split.
  - intros H. destruct (Z.gtb_spec po 0), (Z.ltb_spec po 0); lia.
  - subst po. reflexivity.
  - subst po. reflexivity.
  - intros Hk Hj.
    destruct (Z.ltb_spec k 0), (Z.ltb_spec j 0),
             (Z.eqb_spec k 0), (Z.eqb_spec j 0); try lia.
    replace (b + 1 - 1) with b by lia. rewrite Z.eqb_refl. reflexivity.
Qed.

Lemma intron_flanking_bases_witness :
  Pos.included_plus (Pos.mk 100 5) = Pos.included_minus (Pos.mk 100 5) + 1
  /\ Pos.included_plus (Pos.mk 100 0) = 100
  /\ same_intron (Pos.mk 100 5) (Pos.mk 101 (-7)) = true.
Proof.
  pose proof (intron_flanking_bases (Pos.mk 100 5) 100 5 (-7)) as (H1 & _ & H3).
  pose proof (intron_flanking_bases (Pos.mk 100 0) 100 5 (-7)) as (_ & H2 & _).
  split; [apply H1; simpl; lia|].
  split; [apply H2; reflexivity|].
  apply H3; lia.
Defined.

(** [subtract n] is [add (- n)], [add 0] changes nothing, and two additions
    in a row are the addition of the sum unless the first one brings a
    non-zero offset to 0. *)
Theorem add_composes (p : Pos.obj) (n m : Z) :
  Pos.subtract p n = Pos.add p (- n)
  /\ Pos.add p 0 = p
  /\ (Pos.tpos p = 0 \/ Pos.tpos p + n <> 0 ->
      Pos.add (Pos.add p n) m = Pos.add p (n + m)).
Proof.
  destruct p as [b o]; unfold Pos.add, Pos.subtract; simpl.
  split; [|split].
  - destruct (o =? 0); f_equal; lia.
  - destruct (o =? 0); f_equal; lia.
  - intros H. destruct (Z.eqb_spec o 0); simpl.
    + subst o. simpl. f_equal. lia.
    + destruct (Z.eqb_spec (o + n) 0); [lia|]. f_equal. lia.
Qed.

Lemma add_composes_witness :
  Pos.add (Pos.add (Pos.mk 10 4) 3) 2 = Pos.add (Pos.mk 10 4) (3 + 2).
Proof.
  apply (proj2 (proj2 (add_composes (Pos.mk 10 4) 3 2))).
  right. simpl. lia.
Defined.

(** ** More on [parse_pos] *)

Lemma py_eval_exn (s : string) (e : exn) :
  py_eval s = Raise e -> e = SyntaxError \/ e = NonIntegerOffset.
Proof.
  unfold py_eval. destruct (tokenize s) as [ts|]; [|intros [= <-]; auto].
  destruct (expr (S (length ts)) ts) as [[z|]|]; intros [= <-]; auto.
Qed.

Lemma plus_splits_head_some p c r :
  p c = true -> exists g rest, head (plus_splits p (String c r)) = Some (String c g, rest).
Proof.
  intros Hc. cbn [plus_splits]. rewrite Hc.
  destruct (plus_splits p r) as [|[m r'] l]; simpl; eauto.
Qed.

Lemma re_match_base_offset_no_digit c r :
  is_digit c = false -> re_match_base_offset (String c r) = None.
Proof.
  intros Hc. unfold re_match_base_offset. cbn [plus_splits]. rewrite Hc.
  reflexivity.
Qed.

Lemma isdigit_no_digit c r : is_digit c = false -> isdigit (String c r) = false.
Proof. intros Hc. unfold isdigit. cbn [all_chars]. rewrite Hc. reflexivity. Qed.

(** On an ASCII token, [parse_pos] raises InvalidInputError exactly for the
    empty token and for a token whose first character is none of [0-9],
    [+], [-], [*], and the message then carries the token.  A token that
    starts with one of these characters gives a position or an error of
    [eval]. *)
Theorem parse_pos_invalid_input_iff (s msg : string) :
  ascii_only s = true ->
  parse_pos s = Raise (InvalidInputError msg)
  <-> match s with
      | EmptyString => True
      | String c _ => is_anchor_char c = false
      end
      /\ msg = "invalid_position_string_" +:+ s.
Proof.
  intros _. destruct s as [|c r].
  - split; [intros [= <-]; auto | intros [_ ->]; reflexivity].
  - destruct (is_anchor_char c) eqn:Hc.
    + split; [|intros [H _]; discriminate].
      intros H. exfalso. unfold parse_pos in H.
      destruct (isdigit (String c r)); [discriminate|].
      destruct (re_match_base_offset (String c r)) as [[g1 g2]|].
      * destruct (py_eval g2) as [tp|e] eqn:E; simpl in H; [discriminate|].
        injection H as ->. apply py_eval_exn in E as [E|E]; discriminate.
      * unfold re_match_anchor in H.
        destruct (plus_splits_head_some is_anchor_char c r Hc) as (g & rest & Hh).
        rewrite Hh in H. simpl in H.
        match type of H with
        | context [py_eval ?x] => destruct (py_eval x) as [tp|e] eqn:E
        end; simpl in H; [discriminate|].
        injection H as ->. apply py_eval_exn in E as [E|E]; discriminate.
    + rewrite (parse_pos_rejects c r Hc).
      split; [intros [= <-]; auto | intros [_ ->]; reflexivity].
Qed.

Lemma parse_pos_invalid_input_iff_witness :
  ascii_only "chr1" = true
  /\ parse_pos "chr1" = Raise (InvalidInputError "invalid_position_string_chr1")
  /\ (forall msg, parse_pos "12x" <> Raise (InvalidInputError msg)).
Proof.
  split; [reflexivity|]. split.
  - apply (proj2 (parse_pos_invalid_input_iff "chr1"
                    "invalid_position_string_chr1" eq_refl)).
    split; reflexivity.
  - intros msg H.
    apply (proj1 (parse_pos_invalid_input_iff "12x" msg eq_refl)) in H.
    destruct H as [H _]. discriminate H.
Defined.

Lemma digit_val_range c : is_digit c = true -> 0 <= digit_val c <= 9.
Proof.
  unfold is_digit, digit_val. intros H.
  apply andb_prop in H as [H1 H2].
  apply N.leb_le in H1, H2. lia.
Qed.

Lemma int_acc_nonneg s acc :
  all_chars is_digit s = true -> 0 <= acc -> 0 <= int_acc s acc.
Proof.
  revert acc; induction s as [|c s IH]; intros acc H Hacc; simpl in *; [exact Hacc|].
  apply andb_prop in H as [Hc Hs]. apply IH; [exact Hs|].
  pose proof (digit_val_range c Hc). lia.
Qed.

(** What [p+] matches is a non-empty prefix of the input made of
    characters of the class. *)
Lemma plus_splits_sound p s m r :
  In (m, r) (plus_splits p s) ->
  all_chars p m = true /\ s = m +:+ r /\ exists c m', m = String c m'.
Proof.
  revert m r; induction s as [|c s IH]; intros m r; cbn [plus_splits];
    [intros []|].
  destruct (p c) eqn:Hc; [|intros []].
  intros H. apply in_app_or in H as [H|H].
  - apply in_map_iff in H as ([m0 r0] & [= <- <-] & H0).
    destruct (IH m0 r0 H0) as (Ha & -> & _). simpl.
    rewrite Hc, Ha. eauto.
  - destruct H as [[= <- <-]|[]]. simpl. rewrite Hc. eauto.
Qed.

Lemma head_In {A} (l : list A) x : head l = Some x -> In x l.
Proof. destruct l; simpl; [discriminate | intros [= ->]; auto]. Qed.

(** The two groups of the first pattern: digits, then characters of
    [[+\-0-9]], together a prefix of the token. *)
Lemma re_match_base_offset_sound s g1 g2 :
  re_match_base_offset s = Some (g1, g2) ->
  all_chars is_digit g1 = true
  /\ all_chars is_signed_char g2 = true
  /\ exists rest, s = g1 +:+ g2 +:+ rest.
Proof.
  unfold re_match_base_offset. intros H. apply head_In in H.
  apply in_flat_map in H as ([m1 r1] & H1 & H).
  apply in_map_iff in H as ([m2 r2] & [= <- <-] & H2). simpl in *.
  destruct (plus_splits_sound _ _ _ _ H1) as (Hd & -> & _).
  destruct (plus_splits_sound _ _ _ _ H2) as (Hs & -> & _).
  eauto.
Qed.

Lemma re_match_anchor_sound c r g :
  re_match_anchor (String c r) = Some g ->
  exists g' rest, g = String c g' /\ r = g' +:+ rest.
Proof.
  unfold re_match_anchor.
  destruct (head (plus_splits is_anchor_char (String c r))) as [[m r0]|] eqn:H;
    [|discriminate].
  intros [= <-]. apply head_In in H.
  destruct (plus_splits_sound _ _ _ _ H) as (_ & E & c' & m' & ->).
  injection E as <- ->. eauto.
Qed.

(** The base of a parsed position is a number read from digits, so it is
    not negative, or one of the two marks: 1 for a token that starts with
    [-] and -1 for a token that starts with [*] or [+].  An all-digit token
    gives its value with offset 0. *)
Theorem parse_pos_base (s : string) (p : Pos.obj) :
  parse_pos s = Ok p ->
  -1 <= Pos.pos p
  /\ (forall r, s = String "-" r -> Pos.pos p = 1)
  /\ (forall r, s = String "*" r \/ s = String "+" r -> Pos.pos p = -1)
  /\ (isdigit s = true -> p = Pos.mk (int_of_digits s) 0).
Proof.
  unfold parse_pos. destruct (isdigit s) eqn:Hd.
  - intros [= <-]. simpl.
    assert (Hall : all_chars is_digit s = true)
      by (destruct s; [discriminate | exact Hd]).
    pose proof (int_acc_nonneg s 0 Hall ltac:(lia)) as Hn.
    unfold int_of_digits.
    repeat split; try lia;
      intros r Hr; try destruct Hr as [Hr|Hr]; subst s; discriminate.
  - destruct (re_match_base_offset s) as [[g1 g2]|] eqn:H2.
    + destruct (re_match_base_offset_sound s g1 g2 H2) as (Hg1 & _ & rest & Es).
      destruct (py_eval g2) as [tp|e]; simpl; [|discriminate].
      intros [= <-]. simpl.
      pose proof (int_acc_nonneg g1 0 Hg1 ltac:(lia)) as Hn.
      assert (Hfirst : forall c r, s = String c r -> is_digit c = true).
      { intros c r Hs. subst s. destruct g1 as [|c1 g1'].
        - unfold re_match_base_offset in H2. apply head_In in H2.
          apply in_flat_map in H2 as ([m1 r1] & H1 & H).
          apply in_map_iff in H as (? & [= E _] & _). simpl in E. subst m1.
          destruct (plus_splits_sound _ _ _ _ H1) as (_ & _ & ? & ? & ?).
          discriminate.
        - injection Hs as -> _. simpl in Hg1.
          now apply andb_prop in Hg1 as [? _]. }
      unfold int_of_digits.
      repeat split; try lia; try discriminate;
        intros r Hr; try destruct Hr as [Hr|Hr];
        specialize (Hfirst _ _ Hr); discriminate.
    + destruct s as [|c r]; [discriminate|].
      destruct (re_match_anchor (String c r)) as [g|] eqn:H3; [|discriminate].
      destruct (re_match_anchor_sound c r g H3) as (g' & rest & -> & _).
      match goal with
      | |- context [py_eval ?x] => destruct (py_eval x) as [tp|e]
      end; simpl; [|discriminate].
      intros [= <-]. simpl.
      repeat split; try discriminate.
      * destruct (Ascii.eqb_spec c "-") as [->|]; [lia|].
        destruct c as [[|] [|] [|] [|] [|] [|] [|] [|]]; simpl; lia.
      * intros r0 [= -> _]. reflexivity.
      * intros r0 [[= -> _]|[= -> _]]; reflexivity.
Qed.

Lemma parse_pos_base_witness :
  -1 <= Pos.pos (Pos.mk 1 (-5)) /\ Pos.pos (Pos.mk 1 (-5)) = 1.
Proof.
  destruct (parse_pos_base "-5" (Pos.mk 1 (-5)) eq_refl) as (H1 & H2 & _).
  split; [exact H1 | exact (H2 "5" eq_refl)].
Defined.

Lemma append_assoc (a b c : string) : (a +:+ b) +:+ c = a +:+ (b +:+ c).
Proof.
  induction a as [|x a IH]; [reflexivity|].
  change (String x ((a +:+ b) +:+ c) = String x (a +:+ (b +:+ c))).
  now rewrite IH.
Qed.

(** Text that follows the longest run of the class does not change what
    [p+] can match. *)
Lemma plus_splits_app p s rest :
  match rest with
  | EmptyString => True
  | String c _ => p c = false
  end ->
  plus_splits p (s +:+ rest)
  = map (fun mr => (mr.1, mr.2 +:+ rest)) (plus_splits p s).
Proof.
  intros Hrest. induction s as [|c s IH].
  - change ("" +:+ rest) with rest. now rewrite plus_splits_stop.
  - change (String c s +:+ rest) with (String c (s +:+ rest)).
    cbn [plus_splits]. destruct (p c); [|reflexivity].
    rewrite IH, map_app, !map_map. reflexivity.
Qed.

Lemma re_match_base_offset_app s c junk :
  is_anchor_char c = false ->
  re_match_base_offset (s +:+ String c junk) = re_match_base_offset s.
Proof.
  intros Hc. unfold is_anchor_char in Hc.
  apply orb_false_elim in Hc as [_ Hs].
  assert (Hd : is_digit c = false).
  { unfold is_signed_char in Hs.
    apply orb_false_elim in Hs as [Hs' _]. now apply orb_false_elim in Hs' as [? _]. }
  unfold re_match_base_offset. f_equal.
  rewrite plus_splits_app by exact Hd.
  induction (plus_splits is_digit s) as [|[m r] l IH]; [reflexivity|].
  cbn [map flat_map fst snd]. rewrite IH. f_equal.
  rewrite plus_splits_app by exact Hs. rewrite map_map. reflexivity.
Qed.

Lemma re_match_anchor_app s c junk :
  is_anchor_char c = false ->
  re_match_anchor (s +:+ String c junk) = re_match_anchor s.
Proof.
  intros Hc. unfold re_match_anchor.
  rewrite plus_splits_app by exact Hc.
  destruct (plus_splits is_anchor_char s) as [|[m r] l]; reflexivity.
Qed.

Lemma isdigit_app_junk s c junk :
  is_digit c = false -> isdigit (s +:+ String c junk) = false.
Proof.
  intros Hc. destruct s as [|b s].
  - change ("" +:+ String c junk) with (String c junk).
    now apply isdigit_no_digit.
  - now apply isdigit_app_false.
Qed.

(** The text after a token is ignored: if an ASCII token starts with one of
    [0-9], [+], [-], [*] and is not all digits, then whatever follows it,
    starting with a character outside these, does not change the result. *)
Theorem parse_pos_ignores_tail (c0 : ascii) (s0 : string) (c : ascii)
    (junk : string) :
  ascii_only (String c0 s0) = true ->
  is_anchor_char c0 = true ->
  isdigit (String c0 s0) = false ->
  is_anchor_char c = false ->
  parse_pos (String c0 s0 +:+ String c junk) = parse_pos (String c0 s0).
Proof.
  intros _ H0 Hnd Hc.
  assert (Hd : is_digit c = false).
  { unfold is_anchor_char, is_signed_char in Hc.
    apply orb_false_elim in Hc as [_ Hs].
    apply orb_false_elim in Hs as [Hs' _]. now apply orb_false_elim in Hs' as [? _]. }
  unfold parse_pos.
  rewrite isdigit_app_junk by exact Hd. rewrite Hnd.
  rewrite re_match_base_offset_app by exact Hc.
  destruct (re_match_base_offset (String c0 s0)) as [[g1 g2]|]; [reflexivity|].
  rewrite re_match_anchor_app by exact Hc.
  destruct (plus_splits_head_some is_anchor_char c0 s0 H0) as (g & rest & Hh).
  unfold re_match_anchor. rewrite Hh. reflexivity.
Qed.

Lemma parse_pos_ignores_tail_witness :
  ascii_only "123+45" = true
  /\ parse_pos "123+45abc" = parse_pos "123+45"
  /\ parse_pos "123+45" = Ok (Pos.mk 123 45).
Proof.
  split; [reflexivity|]. split; [|reflexivity].
  apply (parse_pos_ignores_tail "1" "23+45" "a" "bc"); reflexivity.
Defined.

Lemma literal_one_digit d :
  is_digit d = true -> literal (String d "") = Some (digit_val d).
Proof.
  destruct d as [[|] [|] [|] [|] [|] [|] [|] [|]]; intros H;
    try (vm_compute in H; discriminate H); reflexivity.
Qed.

(** On digits only, [\d+] first takes them all, then all but the last. *)
Lemma plus_splits_digits b s d :
  all_chars is_digit (String b s) = true ->
  is_digit d = true ->
  exists l,
    plus_splits is_digit (String b s +:+ String d "")
    = (String b s +:+ String d "", "") :: (String b s, String d "") :: l.
Proof.
  intros Hb Hd. revert b Hb; induction s as [|b' s IH]; intros b Hb;
    simpl in Hb; apply andb_prop in Hb as [Hb Hs].
  - exists []. change (String b "" +:+ String d "") with (String b (String d "")).
    cbn [plus_splits]. rewrite Hb, Hd. reflexivity.
  - destruct (IH b' Hs) as [l E].
    change (String b (String b' s) +:+ String d "")
      with (String b (String b' s +:+ String d "")).
    cbn [plus_splits]. rewrite Hb, E. cbn [map app fst snd]. eauto.
Qed.

(** A run of at least two digits (and of at most 4300, which [int] converts
    in every interpreter) followed by an ASCII character outside [0-9], [+],
    [-], [*] loses its last digit to the offset: the digits before it are
    the base. *)
Theorem parse_pos_digits_then_text (b : ascii) (s : string) (d c : ascii)
    (junk : string) :
  all_chars is_digit (String b s) = true ->
  (String.length (String b s) <= 4300)%nat ->
  is_digit d = true ->
  is_ascii c = true ->
  is_anchor_char c = false ->
  parse_pos (String b s +:+ String d (String c junk))
  = Ok (Pos.mk (int_of_digits (String b s)) (digit_val d)).
Proof.
  intros Hb _ Hd _ Hc.
  assert (Hcd : is_digit c = false).
  { unfold is_anchor_char, is_signed_char in Hc.
    apply orb_false_elim in Hc as [_ Hs].
    apply orb_false_elim in Hs as [Hs' _]. now apply orb_false_elim in Hs' as [? _]. }
  assert (E : String b s +:+ String d (String c junk)
              = (String b s +:+ String d "") +:+ String c junk).
  { rewrite append_assoc. reflexivity. }
  unfold parse_pos. rewrite E.
  rewrite isdigit_app_junk by exact Hcd.
  rewrite re_match_base_offset_app by exact Hc.
  assert (Hm : re_match_base_offset (String b s +:+ String d "")
               = Some (String b s, String d "")).
  { unfold re_match_base_offset.
    destruct (plus_splits_digits b s d Hb Hd) as [l ->].
    cbn [flat_map fst snd plus_splits map app].
    unfold is_signed_char at 1. rewrite Hd. reflexivity. }
  rewrite Hm.
  assert (Hev : py_eval (String d "") = Ok (digit_val d)).
  { unfold py_eval. rewrite (tokenize_digits d "") by (simpl; now rewrite Hd).
    cbn -[literal]. rewrite (literal_one_digit d Hd). reflexivity. }
  rewrite Hev. reflexivity.
Qed.

Lemma parse_pos_digits_then_text_witness :
  parse_pos "123a" = Ok (Pos.mk 12 3).
Proof.
  apply (parse_pos_digits_then_text "1" "2" "3" "a" "");
    try reflexivity.
  apply Nat.leb_le. reflexivity.
Defined.

Lemma py_eval_digits c s v :
  all_chars is_digit (String c s) = true ->
  literal (String c s) = Some v ->
  py_eval (String c s) = Ok v.
Proof.
  intros Hd Hl. unfold py_eval. rewrite (tokenize_digits _ _ Hd).
  cbn -[literal]. rewrite Hl. reflexivity.
Qed.

Lemma tokenize_digits_minus c s r :
  all_chars is_digit (String c s) = true ->
  tokenize (String c s +:+ String "-" r)
  = ts ← tokenize r; Some (TNum (String c s) :: TMinus :: ts).
Proof.
  revert c; induction s as [|c' s IH]; intros c H; simpl in H;
    apply andb_prop in H as [Hc Hs].
  - change (String c "" +:+ String "-" r) with (String c (String "-" r)).
    rewrite (tokenize_digit _ _ Hc).
    change (tokenize (String "-" r)) with (ts ← tokenize r; Some (TMinus :: ts)).
    destruct (tokenize r); reflexivity.
  - change (String c (String c' s) +:+ String "-" r)
      with (String c (String c' s +:+ String "-" r)).
    rewrite (tokenize_digit _ _ Hc), (IH c' Hs).
    destruct (tokenize r); reflexivity.
Qed.

Lemma py_eval_minus_minus c s v c' s' v' :
  all_chars is_digit (String c s) = true ->
  literal (String c s) = Some v ->
  all_chars is_digit (String c' s') = true ->
  literal (String c' s') = Some v' ->
  py_eval (String "-" (String c s +:+ String "-" (String c' s')))
  = Ok (- v - v').
Proof.
  intros Hd Hl Hd' Hl'. unfold py_eval.
  replace (tokenize (String "-" (String c s +:+ String "-" (String c' s'))))
    with (Some [TMinus; TNum (String c s); TMinus; TNum (String c' s')]).
  - cbn -[literal]. rewrite Hl. cbn -[literal]. rewrite Hl'. reflexivity.
  - change (tokenize (String "-" (String c s +:+ String "-" (String c' s'))))
      with (ts ← tokenize (String c s +:+ String "-" (String c' s'));
            Some (TMinus :: ts)).
    rewrite (tokenize_digits_minus _ _ _ Hd), (tokenize_digits _ _ Hd').
    reflexivity.
Qed.

Lemma re_match_anchor_all c s :
  all_chars is_anchor_char (String c s) = true ->
  re_match_anchor (String c s) = Some (String c s).
Proof.
  intros H. unfold re_match_anchor.
  pose proof (plus_splits_head is_anchor_char c s "" H I) as Hh.
  rewrite app_empty_r in Hh. rewrite Hh. reflexivity.
Qed.

Lemma digit_is_anchor s :
  all_chars is_digit s = true -> all_chars is_anchor_char s = true.
Proof.
  intros H. apply digit_is_signed in H.
  induction s as [|c s IH]; [reflexivity|].
  simpl in *. apply andb_prop in H as [Hc Hs].
  unfold is_anchor_char at 1. rewrite Hc, (IH Hs). now rewrite orb_true_r.
Qed.

(** Rendering is lossy for a negative base.  With a positive offset the
    base is not written at all and parses back as -1; otherwise the base is
    written with its sign, which [parse_pos] reads as part of the offset:
    the result has base 1 and the sum of the base and the offset as its
    offset. *)
Theorem repr_parse_negative (p : Pos.obj) :
  Pos.pos p < 0 ->
  parse_pos (Pos.repr p)
  = Ok (if 0 <? Pos.tpos p then Pos.mk (-1) (Pos.tpos p)
        else Pos.mk 1 (Pos.pos p + Pos.tpos p)).
Proof.
  destruct p as [b o]; simpl; intros Hb.
  destruct b as [|pb|pb]; try lia. clear Hb.
  destruct (str_Z_digits (Z.pos pb)) as (cb & sb & Eb & Hdb); [lia|].
  assert (Hlb : literal (String cb sb) = Some (Z.pos pb))
    by (rewrite <- Eb; apply literal_str_Z).
  unfold Pos.repr, parse_pos; simpl Pos.pos; simpl Pos.tpos.
  destruct o as [|q|q].
  - (* offset 0: "-B" *)
    cbn [Z.ltb Z.gtb Z.compare]. rewrite str_Z_neg, Eb.
    rewrite isdigit_no_digit, re_match_base_offset_no_digit by reflexivity.
    rewrite re_match_anchor_all
      by (change (all_chars is_anchor_char (String cb sb) = true);
          now apply digit_is_anchor).
    rewrite (py_eval_minus cb sb (Z.pos pb) Hdb Hlb). reflexivity.
  - (* positive offset: "*O" *)
    cbn [Z.ltb Z.gtb Z.compare].
    destruct (str_Z_digits (Z.pos q)) as (cq & sq & Eq & Hdq); [lia|].
    change ("*" +:+ str_Z (Z.pos q)) with (String "*" (str_Z (Z.pos q))).
    rewrite Eq.
    rewrite isdigit_no_digit, re_match_base_offset_no_digit by reflexivity.
    rewrite re_match_anchor_all
      by (change (all_chars is_anchor_char (String cq sq) = true);
          now apply digit_is_anchor).
    rewrite (py_eval_digits cq sq (Z.pos q) Hdq)
      by (rewrite <- Eq; apply literal_str_Z).
    reflexivity.
  - (* negative offset: "-B-O" *)
    cbn [Z.ltb Z.gtb Z.compare].
    destruct (str_Z_digits (Z.pos q)) as (cq & sq & Eq & Hdq); [lia|].
    rewrite !str_Z_neg, Eb, Eq.
    change (String "-" (String cb sb) +:+ String "-" (String cq sq))
      with (String "-" (String cb sb +:+ String "-" (String cq sq))).
    rewrite isdigit_no_digit, re_match_base_offset_no_digit by reflexivity.
    rewrite re_match_anchor_all.
    + rewrite (py_eval_minus_minus cb sb (Z.pos pb) cq sq (Z.pos q) Hdb Hlb Hdq)
        by (rewrite <- Eq; apply literal_str_Z).
      reflexivity.
    + change (all_chars is_anchor_char
                (String cb sb +:+ String "-" (String cq sq)) = true).
      rewrite all_chars_app, (digit_is_anchor _ Hdb).
      change (all_chars is_anchor_char (String cq sq) = true).
      now apply digit_is_anchor.
Qed.

Lemma repr_parse_negative_witness :
  Pos.pos (Pos.mk (-3) (-4)) < 0
  /\ parse_pos (Pos.repr (Pos.mk (-3) (-4))) = Ok (Pos.mk 1 (-7)).
Proof.
  split; [simpl; lia|].
  apply (repr_parse_negative (Pos.mk (-3) (-4))). simpl. lia.
Defined.

(** ** Query positions *)

(** [set_pos] accepts the decimal rendering of a positive integer (of at
    most 4300 digits, which [int] converts in every interpreter) and stores
    that integer without a warning; it refuses the rendering of 0 and of a
    negative integer.  Of the ASCII strings of at most 4300 characters it
    accepts those that are all digits and whose value is positive, and no
    other; a string it refuses leaves the position as it was and adds one
    warning that quotes the string. *)
Theorem set_pos_accepts_positive (pos : option Z) (s : string)
    (log : list string) (n : Z) :
  (0 < n -> (String.length (str_Z n) <= 4300)%nat ->
   set_pos pos (str_Z n) log = (true, Some n, log))
  /\ (n <= 0 ->
      set_pos pos (str_Z n) log
      = (false, pos, log ++ ["abnormal position " +:+ str_Z n +:+ ". skip."]))
  /\ (ascii_only s = true -> (String.length s <= 4300)%nat ->
      ((set_pos pos s log).1.1 = true
       <-> isdigit s = true /\ 0 < int_of_digits s))
  /\ (ascii_only s = true -> (String.length s <= 4300)%nat ->
      (set_pos pos s log).1.1 = false ->
      set_pos pos s log
      = (false, pos, log ++ ["abnormal position " +:+ s +:+ ". skip."])).
Proof.
  unfold set_pos, err_warn. split; [|split; [|split]].
  - intros Hn _. rewrite isdigit_str_Z, int_str_Z by lia.
    destruct (Z.gtb_spec n 0); [reflexivity | lia].
  - intros Hn. destruct n as [|p|p]; [reflexivity | lia | reflexivity].
  - intros _ _. split.
    + destruct (isdigit s); [|discriminate].
      destruct (Z.gtb_spec (int_of_digits s) 0); simpl;
        [intros _; split; [reflexivity | lia] | discriminate].
    + intros [-> H].
      destruct (Z.gtb_spec (int_of_digits s) 0); [reflexivity | lia].
  - intros _ _.
    destruct (isdigit s && (int_of_digits s >? 0)); [discriminate | reflexivity].
Qed.

Lemma set_pos_accepts_positive_witness :
  set_pos None (str_Z 545) [] = (true, Some 545, [])
  /\ set_pos (Some 7) (str_Z 0) []
     = (false, Some 7, ["abnormal position 0. skip."])
  /\ (set_pos None "12" []).1.1 = true
  /\ set_pos (Some 7) "1a" []
     = (false, Some 7, ["abnormal position 1a. skip."]).
Proof.
  pose proof (set_pos_accepts_positive None "12" [] 545) as (H1 & _ & H3 & _).
  pose proof (set_pos_accepts_positive (Some 7) "1a" [] 0) as (_ & H2 & _ & H4).
  split; [|split; [|split]].
  - apply H1; [lia | apply Nat.leb_le; reflexivity].
  - apply H2; lia.
  - apply H3; [reflexivity | apply Nat.leb_le; reflexivity |].
    split; [reflexivity | reflexivity].
  - apply H4; [reflexivity | apply Nat.leb_le; reflexivity | reflexivity].
Defined.

(** ** Printing the records of a query *)

Lemma formats_all_length records gseq lines rs :
  formats_all records gseq = Ok (lines, rs) ->
  length lines = length records /\ length rs = length records.
Proof.
  revert lines rs; induction records as [|r records IH]; intros lines rs; simpl.
  - intros [= <- <-]. auto.
  - destruct (Record.formats r gseq) as [[l r']|]; simpl; [|discriminate].
    destruct (formats_all records gseq) as [[ls rs']|]; simpl; [|discriminate].
    intros [= <- <-]. destruct (IH ls rs' eq_refl). simpl. lia.
Qed.

(** Printing the records one by one prints their renderings, each after
    the label, in the order of the list. *)
Lemma format_each_lines records fqop gseq out :
  format_each records fqop gseq out
  = lrs ← formats_all records gseq;
    Ok (out ++ map (fun l => (if str_truthy fqop then fqop +:+ Record.tab else "")
                               +:+ l) lrs.1,
        lrs.2).
Proof.
  revert out; induction records as [|r records IH]; intros out; simpl.
  - now rewrite app_nil_r.
  - unfold Record.format.
    destruct (Record.formats r gseq) as [[l r']|]; simpl; [|reflexivity].
    rewrite IH.
    destruct (formats_all records gseq) as [[ls rs']|]; simpl; [|reflexivity].
    rewrite <- app_assoc. reflexivity.
Qed.

(** For a query with at least one record, [format_records] renders the
    records in the order given.  In multi-line mode it prints one line per
    record, each made of the label, a tab and the rendering; in one-line
    mode it prints a single line, the label followed by the renderings
    joined by tab, "|||", tab.  An error in rendering a record ends the call
    with that error. *)
Theorem format_records_lines (r : Record.obj) (records : list Record.obj)
    (qop : string) (args : Args.obj) (custom_match : bool) (out : list string) :
  let fqop := if Args.custom args && negb custom_match
              then "*" +:+ qop else qop in
  let label := if str_truthy fqop then fqop +:+ Record.tab else "" in
  format_records (r :: records) qop args custom_match out
  = lrs ← formats_all (r :: records) (Args.gseq args);
    Ok (out ++ (if Args.oneline args
                then [label +:+ join (Record.tab +:+ "|||" +:+ Record.tab) lrs.1]
                else map (fun l => label +:+ l) lrs.1),
        lrs.2).
Proof.
  intros fqop label. unfold format_records. fold fqop.
  cbn [length Nat.ltb Nat.leb].
  destruct (Args.oneline args); [reflexivity|].
  apply format_each_lines.
Qed.

(** The number of lines [format_records] prints: one in one-line mode, and
    otherwise one per record. *)
Theorem format_records_line_count (r : Record.obj) (records : list Record.obj)
    (qop : string) (args : Args.obj) (custom_match : bool)
    (out out' : list string) (rs' : list Record.obj) :
  format_records (r :: records) qop args custom_match out = Ok (out', rs') ->
  length rs' = S (length records)
  /\ length out'
     = (length out + if Args.oneline args then 1 else S (length records))%nat.
Proof.
  unfold format_records. cbn [length Nat.ltb Nat.leb].
  destruct (Args.oneline args).
  - destruct (formats_all (r :: records) (Args.gseq args)) as [[ls rs]|] eqn:E;
      simpl; [|discriminate].
    intros [= <- <-]. destruct (formats_all_length _ _ _ _ E) as [_ H].
    rewrite length_app. simpl in *. lia.
  - rewrite format_each_lines.
    destruct (formats_all (r :: records) (Args.gseq args)) as [[ls rs]|] eqn:E;
      simpl; [|discriminate].
    intros [= <- <-]. destruct (formats_all_length _ _ _ _ E) as [H1 H2].
    rewrite length_app, length_map. simpl in *. lia.
Qed.

Lemma format_records_line_count_witness :
  exists out' rs',
    format_records [Record.init true; Record.init false] "q"
                   (Args.mk false false false 0 false) false []
    = Ok (out', rs')
    /\ length out' = 2%nat.
Proof.
  destruct (format_records [Record.init true; Record.init false] "q"
              (Args.mk false false false 0 false) false [])
    as [[out' rs']|] eqn:E; [|vm_compute in E; discriminate E].
  exists out', rs'. split; [reflexivity|].
  apply (format_records_line_count _ _ _ _ _ _ _ _ E).
Defined.

(** A query without records prints exactly one line, that of a fresh record
    whose info is "no_valid_transcript_found", under the label of the query,
    and never fails. *)
Theorem format_records_not_found (qop : string) (args : Args.obj)
    (custom_match : bool) (out : list string) :
  let fqop := if Args.custom args && negb custom_match
              then "*" +:+ qop else qop in
  format_records [] qop args custom_match out
  = Ok (out ++ [(if str_truthy fqop then fqop +:+ Record.tab else "")
                  +:+ "." +:+ Record.tab +:+ "." +:+ Record.tab +:+ "."
                  +:+ Record.tab +:+ "././." +:+ Record.tab +:+ "."
                  +:+ Record.tab +:+ "no_valid_transcript_found"
                  +:+ (if Args.gseq args
                       then Record.tab +:+ "." +:+ Record.tab +:+ "."
                              +:+ Record.tab +:+ Record.long_msg
                              +:+ Record.tab +:+ Record.long_msg
                       else "")],
        []).
Proof.
  intros fqop. unfold format_records, Record.format. fold fqop.
  cbn [length Nat.ltb Nat.leb].
  destruct (Args.gseq args), (str_truthy fqop); reflexivity.
Qed.

Lemma formats_all_ok (records : list Record.obj) (gseq : bool) :
  Forall (fun r => exists l r', Record.formats r gseq = Ok (l, r')) records ->
  exists ls rs, formats_all records gseq = Ok (ls, rs).
Proof.
  induction 1 as [|r records (l & r' & E) _ (ls & rs & IH)]; simpl.
  - eexists _, _; reflexivity.
  - rewrite E, IH. eexists _, _; reflexivity.
Qed.

(** In custom mode, printing a result that is not a custom match returns
    whenever each of its records can be rendered (always, then, when it has
    no record).  Whenever it returns, it has printed at least one line, and
    the lines it printed all start with "*", whatever the label of the
    query. *)
Theorem format_records_custom_mark (records : list Record.obj) (qop : string)
    (args : Args.obj) (out : list string) :
  Args.custom args = true ->
  (Forall (fun r => exists l r', Record.formats r (Args.gseq args) = Ok (l, r'))
          records ->
   exists out' rs', format_records records qop args false out = Ok (out', rs'))
  /\ (forall out' rs',
        format_records records qop args false out = Ok (out', rs') ->
        exists line lines,
          out' = out ++ line :: lines
          /\ Forall (fun l => exists rest, l = String "*" rest) (line :: lines)).
Proof.
  intros Hc. split.
  - intros Hall. unfold format_records. rewrite Hc. cbn [andb negb].
    change (str_truthy ("*" +:+ qop)) with true. cbn iota.
    destruct records as [|r records]; cbn [length Nat.ltb Nat.leb].
    + unfold Record.format. change (str_truthy ("*" +:+ qop)) with true. cbn iota.
      destruct (Args.gseq args); eexists _, _; reflexivity.
    + destruct (formats_all_ok _ _ Hall) as (ls & rs & E).
      destruct (Args.oneline args).
      * rewrite E. eexists _, _; reflexivity.
      * rewrite format_each_lines, E. eexists _, _; reflexivity.
  - intros out' rs'. unfold format_records. rewrite Hc. cbn [andb negb].
    change (str_truthy ("*" +:+ qop)) with true. cbn iota.
    destruct records as [|r records]; cbn [length Nat.ltb Nat.leb].
    + unfold Record.format. change (str_truthy ("*" +:+ qop)) with true. cbn iota.
      destruct (Record.formats _ _) as [[l r']|]; simpl; [|discriminate].
      intros [= <- <-]. eexists _, []. split; [reflexivity|].
      repeat constructor. eexists; reflexivity.
    + destruct (Args.oneline args).
      * destruct (formats_all _ _) as [[ls rs]|]; simpl; [|discriminate].
        intros [= <- <-]. eexists _, []. split; [reflexivity|].
        repeat constructor. eexists; reflexivity.
      * rewrite format_each_lines.
        destruct (formats_all (r :: records) (Args.gseq args)) as [[ls rs]|] eqn:E;
          [|discriminate].
        unfold mbind, res_bind; cbn [fst snd].
        intros [= <- <-].
        destruct ls as [|l ls];
          [apply formats_all_length in E as [E _]; discriminate E|].
        eexists _, _. split; [reflexivity|].
        constructor; [eexists; reflexivity|].
        clear E. induction ls as [|l' ls IH]; constructor;
          [eexists; reflexivity | exact IH].
Qed.

Lemma format_records_custom_mark_witness :
  exists out' rs',
    format_records [Record.init true; Record.init false] "chr1:g.100"
                   (Args.mk true false false 0 false) false ["header"]
    = Ok (out', rs')
    /\ exists line lines,
         out' = ["header"] ++ line :: lines
         /\ Forall (fun l => exists rest, l = String "*" rest) (line :: lines).
Proof.
  destruct (format_records_custom_mark
              [Record.init true; Record.init false] "chr1:g.100"
              (Args.mk true false false 0 false) ["header"] eq_refl)
    as [Hret Hmark].
  destruct Hret as (out' & rs' & E).
  { repeat constructor; eexists _, _; reflexivity. }
  exists out', rs'. split; [exact E | exact (Hmark out' rs' E)].
Defined.



(** ** The info of a record *)

Lemma info_set_spec (self : Record.obj) :
  Record.info_set self = true
  <-> Record.info self <> "" /\ Record.info self <> ".".
Proof.
  unfold Record.info_set. destruct (Record.info self) as [|c i].
  - split; [discriminate | intros [H _]; contradiction].
  - cbn [str_truthy andb].
    destruct (String.eqb_spec (String c i) "."); cbn [negb].
    + split; [discriminate | intros [_ H]; contradiction].
    + split; [intros _; split; [discriminate | assumption] | reflexivity].
Qed.

Lemma info_set_app (i suf : string) (self : Record.obj) :
  Record.info_set self = true ->
  Record.info_set (Record.set_info self (Record.info self +:+ ";" +:+ suf)) = true.
Proof.
  intros H. apply info_set_spec in H as [H1 H2]. apply info_set_spec. simpl.
  destruct (Record.info self) as [|c i']; [contradiction|].
  change (String c i' +:+ ";" +:+ suf) with (String c (i' +:+ ";" +:+ suf)).
  split; [discriminate|].
  intros [= _ E]. destruct i'; cbv in E; discriminate E.
Qed.

Lemma append_info_set (self : Record.obj) (a : string) :
  Record.info_set self = true ->
  Record.info (Record.append_info self a) = Record.info self +:+ ";" +:+ a
  /\ Record.info_set (Record.append_info self a) = true.
Proof.
  intros H. unfold Record.append_info. rewrite H.
  split; [reflexivity | now apply (info_set_app (Record.info self))].
Qed.

Lemma append_info_unset (self : Record.obj) (a : string) :
  Record.info_set self = false ->
  Record.info (Record.append_info self a) = a.
Proof. intros H. unfold Record.append_info. now rewrite H. Qed.

Lemma fold_append_info_set (l : list string) (self : Record.obj) (a : string) :
  Record.info_set self = true ->
  Record.info (fold_left Record.append_info (a :: l) self)
  = Record.info self +:+ ";" +:+ join ";" (a :: l).
Proof.
  revert self a; induction l as [|b l IH]; intros self a H.
  - simpl. apply (append_info_set self a H).
  - destruct (append_info_set self a H) as [E H'].
    change (fold_left Record.append_info (a :: b :: l) self)
      with (fold_left Record.append_info (b :: l) (Record.append_info self a)).
    rewrite (IH _ b H'), E.
    change (join ";" (a :: b :: l)) with (a +:+ ";" +:+ join ";" (b :: l)).
    now rewrite !append_assoc.
Qed.

(** Tokens appended one after the other to a record that has an info end
    up behind that info, each after a semicolon.  On a record that has none
    (an empty info or the placeholder "."), they end up joined by
    semicolons and alone, provided that the first of them is neither empty
    nor "."; a first token that is empty or "." is dropped by the token
    that follows it. *)
Theorem append_info_accumulates (self : Record.obj) (a : string)
    (l : list string) :
  (Record.info_set self = true ->
   Record.info (fold_left Record.append_info (a :: l) self)
   = Record.info self +:+ ";" +:+ join ";" (a :: l))
  /\ (Record.info_set self = false -> a <> "" -> a <> "." ->
      Record.info (fold_left Record.append_info (a :: l) self)
      = join ";" (a :: l))
  /\ (Record.info_set self = false -> a = "" \/ a = "." ->
      forall b,
        Record.info (fold_left Record.append_info (a :: b :: l) self)
        = Record.info (fold_left Record.append_info (b :: l) self)).
Proof.
  split; [|split].
  - intros H. now apply fold_append_info_set.
  - intros H Ha1 Ha2.
    destruct l as [|b l]; [now apply append_info_unset|].
    change (fold_left Record.append_info (a :: b :: l) self)
      with (fold_left Record.append_info (b :: l) (Record.append_info self a)).
    rewrite fold_append_info_set.
    + now rewrite (append_info_unset self a H).
    + apply info_set_spec. now rewrite (append_info_unset self a H).
  - intros H Ha b.
    change (fold_left Record.append_info (a :: b :: l) self)
      with (fold_left Record.append_info l
              (Record.append_info (Record.append_info self a) b)).
    change (fold_left Record.append_info (b :: l) self)
      with (fold_left Record.append_info l (Record.append_info self b)).
    f_equal. f_equal.
    unfold Record.append_info at 2. rewrite H.
    unfold Record.append_info, Record.set_info. rewrite H.
    destruct Ha as [-> | ->]; reflexivity.
Qed.

Lemma append_info_accumulates_witness :
  Record.info
    (fold_left Record.append_info ["C2=x"; "dbxref=1"; "source=s"]
               (Record.init false))
  = "C2=x;dbxref=1;source=s"
  /\ Record.info
       (fold_left Record.append_info ["C2=x"; "dbxref=1"]
          (Record.mk "." "." "." "." Record.RegUnset "y=0" false []
                     Record.no_coords))
     = "y=0;C2=x;dbxref=1"
  /\ Record.info
       (fold_left Record.append_info [""; "x"] (Record.init false))
     = Record.info (fold_left Record.append_info ["x"] (Record.init false)).
Proof.
  split; [|split].
  - apply (proj1 (proj2 (append_info_accumulates (Record.init false) "C2=x"
                           ["dbxref=1"; "source=s"])));
      [reflexivity | discriminate | discriminate].
  - apply (proj1 (append_info_accumulates
                    (Record.mk "." "." "." "." Record.RegUnset "y=0" false []
                               Record.no_coords)
                    "C2=x" ["dbxref=1"])).
    reflexivity.
  - apply (proj2 (proj2 (append_info_accumulates (Record.init false) "" [])));
      [reflexivity | left; reflexivity].
Defined.

(** A token put in front and a token put behind can be added in either
    order: the result is the same record. *)
Theorem prepend_append_commute (self : Record.obj) (a b : string) :
  a <> "" -> a <> "." -> b <> "" -> b <> "." ->
  Record.prepend_info (Record.append_info self a) b
  = Record.append_info (Record.prepend_info self b) a.
Proof.
  intros Ha1 Ha2 Hb1 Hb2.
  assert (Hset : forall i r, i <> "" -> i <> "." ->
                   Record.info_set (Record.set_info r i) = true)
    by (intros i r H1 H2; now apply info_set_spec).
  unfold Record.prepend_info, Record.append_info.
  destruct (Record.info_set self) eqn:H.
  - rewrite (info_set_app (Record.info self) a self H).
    assert (H' : Record.info_set
                   (Record.set_info self (b +:+ ";" +:+ Record.info self)) = true).
    { apply info_set_spec. simpl. destruct b as [|c b']; [contradiction|].
      change (String c b' +:+ ";" +:+ Record.info self)
        with (String c (b' +:+ ";" +:+ Record.info self)).
      split; [discriminate | intros [= _ E]; destruct b'; cbv in E; discriminate E]. }
    rewrite H'. unfold Record.set_info; simpl. f_equal.
    now rewrite !append_assoc.
  - rewrite (Hset a self Ha1 Ha2), (Hset b self Hb1 Hb2). reflexivity.
Qed.

Lemma prepend_append_commute_witness :
  Record.prepend_info (Record.append_info (Record.init true) "source=s")
                      "CSQN=Missense"
  = Record.append_info (Record.prepend_info (Record.init true) "CSQN=Missense")
                       "source=s".
Proof.
  apply (prepend_append_commute (Record.init true) "source=s" "CSQN=Missense");
    discriminate.
Defined.

(** ** What [set_splice] changes *)

Lemma extends_refl (self : Record.obj) : record_extends self self.
Proof.
  unfold record_extends. repeat split; try reflexivity.
  - exists []. now rewrite app_nil_r.
  - assumption.
  - exists "". now rewrite app_empty_r.
Qed.

Lemma extends_trans (r1 r2 r3 : Record.obj) :
  record_extends r1 r2 -> record_extends r2 r3 -> record_extends r1 r3.
Proof.
  unfold record_extends.
  intros (A1 & A2 & A3 & A4 & A5 & A6 & A7 & (t1 & A8) & A9)
         (B1 & B2 & B3 & B4 & B5 & B6 & B7 & (t2 & B8) & B9).
  repeat split; try congruence.
  - exists (t1 ++ t2). rewrite B8, A8. now rewrite app_assoc.
  - destruct (A9 H) as [H' _]. now destruct (B9 H').
  - destruct (A9 H) as [H' (s1 & E1)]. destruct (B9 H') as [_ (s2 & E2)].
    exists (s1 +:+ s2). rewrite E2, E1. apply append_assoc.
Qed.

Lemma extends_append_info (self : Record.obj) (a : string) :
  record_extends self (Record.append_info self a).
Proof.
  unfold record_extends.
  assert (F : forall i, Record.set_info self i = Record.mk (Record.tname self)
            (Record.chrm self) (Record.gene self) (Record.strand self)
            (Record.reg self) i (Record.is_var self) (Record.csqn self)
            (Record.co self)) by reflexivity.
  repeat split; try (unfold Record.append_info;
                     destruct (Record.info_set self); reflexivity).
  - exists []. rewrite app_nil_r. apply csqn_append_info.
  - match goal with
    | H : Record.info_set self = true |- _ => apply (append_info_set self a H)
    end.
  - exists (";" +:+ a).
    match goal with
    | H : Record.info_set self = true |- _ => apply (append_info_set self a H)
    end.
Qed.

Lemma extends_csqn_append (self : Record.obj) (c : string) :
  record_extends self (Record.csqn_append self c).
Proof.
  unfold record_extends. repeat split; try reflexivity.
  - exists [c]. reflexivity.
  - assumption.
  - exists "". simpl. now rewrite app_empty_r.
Qed.

Lemma extends_fold_append_info {A : Type} (f : A -> string) (l : list A)
    (st : bool * Record.obj) :
  record_extends st.2
    (fold_left (fun (st : bool * Record.obj) (d : A) =>
                  (true, Record.append_info st.2 (f d))) l st).2.
Proof.
  revert st; induction l as [|d l IH]; intros st; simpl; [apply extends_refl|].
  eapply extends_trans; [|apply IH]. simpl. apply extends_append_info.
Qed.

Ltac extends_step :=
  repeat first
    [ apply extends_refl
    | eapply extends_trans; [|apply extends_append_info]
    | eapply extends_trans; [|apply extends_csqn_append] ].

Lemma set_splice_span_extends s action csqn_action self e self' :
  Record.set_splice_span s action csqn_action self = Ok (e, self') ->
  record_extends self self'.
Proof.
  unfold Record.set_splice_span.
  match goal with
  | |- (let '(_, _) := ?X in _) = _ -> _ => remember X as st1 eqn:E1
  end.
  assert (H1 : record_extends self st1.2).
  { subst st1. destruct (RegSpanAnno.splice_donors s) as [ds|]; [|apply extends_refl].
    eapply extends_trans; [|apply extends_fold_append_info]. simpl.
    destruct (0 <? length ds)%nat; extends_step. }
  clear E1. destruct st1 as [e1 r1]. simpl in H1.
  match goal with
  | |- (let '(_, _) := ?X in _) = _ -> _ => remember X as st2 eqn:E2
  end.
  assert (H2 : record_extends r1 st2.2).
  { subst st2. destruct (RegSpanAnno.splice_acceptors s) as [ds|]; [|apply extends_refl].
    eapply extends_trans; [|apply extends_fold_append_info]. simpl.
    destruct (0 <? length ds)%nat; extends_step. }
  clear E2. destruct st2 as [e2 r2]. simpl in H2.
  match goal with
  | |- (let '(_, _) := ?X in _) = _ -> _ => remember X as st3 eqn:E3
  end.
  assert (H3 : record_extends r2 st3.2).
  { subst st3. destruct (RegSpanAnno.splice_both s) as [[|x xs]|]; simpl;
      extends_step. }
  clear E3. destruct st3 as [e3 r3]. simpl in H3.
  pose proof (extends_trans _ _ _ (extends_trans _ _ _ H1 H2) H3) as H.
  clear H1 H2 H3.
  destruct (RegSpanAnno.cross_start s) as [[|]|],
           (RegSpanAnno.cross_end s) as [[|]|],
           (RegSpanAnno.t s) as [t|];
    simpl; try discriminate;
    try destruct (String.eqb (Transcript.strand t) "+"); simpl;
    intros [= <- <-]; (eapply extends_trans; [exact H|]); extends_step.
Qed.

Lemma set_splice_site_extends a csqn_action self e self' :
  Record.set_splice_site a csqn_action self = Ok (e, self') ->
  record_extends self self'.
Proof.
  unfold Record.set_splice_site.
  destruct (RegAnno.splice a) as [sp|];
    [destruct (negb (SpliceSite.nextto sp) && negb (String.eqb csqn_action "Synonymous"))|];
    destruct (RegAnno.cds_beg a), (RegAnno.cds_end a), (RegAnno.tss a),
             (RegAnno.tes a), (RegAnno.t a);
    simpl; try discriminate; intros [= <- <-]; extends_step.
Qed.

(** [set_splice] only adds: when it returns, the record has the same
    names, region, coordinates and variant flag as before, its consequence
    tags are the old ones followed by new ones, and an info that was set is
    still there, followed by new text. *)
Theorem set_splice_extends (self : Record.obj) (action csqn_action : string)
    (e : bool) (self' : Record.obj) :
  Record.set_splice self action csqn_action = Ok (e, self') ->
  record_extends self self'.
Proof.
  unfold Record.set_splice.
  destruct (Record.reg self); try discriminate.
  - apply set_splice_site_extends.
  - apply set_splice_span_extends.
Qed.

Lemma set_splice_extends_witness :
  record_extends
    (Record.mk "NM_1" "chr17" "TP53" "-"
       (Record.RegSite
          (RegAnno.mk true (Some 2) true None false None None (Some 100) None
             None (Some (Transcript.mk "TP53" "" [] "" "-" "chr17" 100 200))
             None None None))
       "x=1" true ["Missense"] Record.no_coords)
    (Record.mk "NM_1" "chr17" "TP53" "-"
       (Record.RegSite
          (RegAnno.mk true (Some 2) true None false None None (Some 100) None
             None (Some (Transcript.mk "TP53" "" [] "" "-" "chr17" 100 200))
             None None None))
       "x=1;C2=cds_start_at_chr17:100" true ["Missense"; "CdsStartMissense"]
       Record.no_coords).
Proof.
  apply (set_splice_extends _ "" "Missense" true). reflexivity.
Defined.

(** On a single site whose transcript is known, [set_splice] returns true
    exactly when the action is not "Synonymous" and the site is on a splice
    site (not merely next to one), on the start or the end of the coding
    sequence, or on the start or the end of the transcript.  The tags it
    appends are Splice<type><action> for a splice site hit with another
    action than "Synonymous", then CdsStart<action> and CdsStop<action> for
    the ends of the coding sequence, whatever the action. *)
Theorem set_splice_site_result (self : Record.obj) (a : RegAnno.obj)
    (t : Transcript.obj) (action csqn_action : string) :
  Record.reg self = Record.RegSite a ->
  RegAnno.t a = Some t ->
  let syn := String.eqb csqn_action "Synonymous" in
  let on_splice := match RegAnno.splice a with
                   | Some sp => negb (SpliceSite.nextto sp)
                   | None => false
                   end in
  exists self',
    Record.set_splice self action csqn_action
    = Ok (negb syn
          && (on_splice
              || bool_decide (is_Some (RegAnno.cds_beg a))
              || bool_decide (is_Some (RegAnno.cds_end a))
              || bool_decide (is_Some (RegAnno.tss a))
              || bool_decide (is_Some (RegAnno.tes a))),
          self')
    /\ Record.csqn self'
       = Record.csqn self
           ++ match RegAnno.splice a with
              | Some sp =>
                  if on_splice && negb syn
                  then ["Splice" +:+ SpliceSite.stype sp +:+ csqn_action]
                  else []
              | None => []
              end
           ++ (if bool_decide (is_Some (RegAnno.cds_beg a))
               then ["CdsStart" +:+ csqn_action] else [])
           ++ (if bool_decide (is_Some (RegAnno.cds_end a))
               then ["CdsStop" +:+ csqn_action] else []).
Proof.
  intros Hreg Ht syn on_splice. subst syn on_splice.
  unfold Record.set_splice. rewrite Hreg.
  unfold Record.set_splice_site. rewrite Ht.
  destruct (RegAnno.splice a) as [sp|];
    [destruct (SpliceSite.nextto sp)|];
    destruct (String.eqb csqn_action "Synonymous");
    destruct (RegAnno.cds_beg a), (RegAnno.cds_end a), (RegAnno.tss a),
             (RegAnno.tes a);
    simpl; eexists; (split; [reflexivity|]);
    rewrite ?csqn_append_info; simpl; rewrite ?csqn_append_info; simpl;
    rewrite ?csqn_append_info; simpl; rewrite ?csqn_append_info; simpl;
    rewrite ?csqn_append_info; simpl;
    rewrite <- ?app_assoc; rewrite ?app_nil_r; reflexivity.
Qed.

Lemma set_splice_site_result_witness :
  exists self',
    Record.set_splice
      (Record.mk "NM_1" "chr17" "TP53" "+"
         (Record.RegSite
            (RegAnno.mk true (Some 2) true None false None None (Some 100) None
               None (Some (Transcript.mk "TP53" "" [] "" "+" "chr17" 100 200))
               None None None))
         "." true [] Record.no_coords)
      "" "Synonymous"
    = Ok (false, self')
    /\ Record.csqn self' = ["CdsStartSynonymous"].
Proof.
  destruct (set_splice_site_result
    (Record.mk "NM_1" "chr17" "TP53" "+"
       (Record.RegSite
          (RegAnno.mk true (Some 2) true None false None None (Some 100) None
             None (Some (Transcript.mk "TP53" "" [] "" "+" "chr17" 100 200))
             None None None))
       "." true [] Record.no_coords)
    (RegAnno.mk true (Some 2) true None false None None (Some 100) None
       None (Some (Transcript.mk "TP53" "" [] "" "+" "chr17" 100 200))
       None None None)
    (Transcript.mk "TP53" "" [] "" "+" "chr17" 100 200)
    "" "Synonymous" eq_refl eq_refl) as (self' & H & Hc).
  exists self'. split; [exact H | exact Hc].
Defined.

(** [set_splice] needs the transcript of the region as soon as there is a
    boundary to report: without it, a span that crosses the start or the end
    of the coding sequence, and a single site on an end of the coding
    sequence or of the transcript, raise AttributeError, as does a record
    whose region is unset, intergenic or at codon level. *)
Theorem set_splice_missing_transcript (self : Record.obj)
    (action csqn_action : string) :
  (forall s,
     Record.reg self = Record.RegSpan s -> RegSpanAnno.t s = None ->
     RegSpanAnno.cross_start s = Some true \/ RegSpanAnno.cross_end s = Some true ->
     Record.set_splice self action csqn_action = Raise AttributeError)
  /\ (forall a,
        Record.reg self = Record.RegSite a -> RegAnno.t a = None ->
        is_Some (RegAnno.cds_beg a) \/ is_Some (RegAnno.cds_end a)
        \/ is_Some (RegAnno.tss a) \/ is_Some (RegAnno.tes a) ->
        Record.set_splice self action csqn_action = Raise AttributeError)
  /\ ((forall a, Record.reg self <> Record.RegSite a) ->
      (forall s, Record.reg self <> Record.RegSpan s) ->
      Record.set_splice self action csqn_action = Raise AttributeError).
Proof.
  unfold Record.set_splice. repeat split.
  - intros s -> Ht Hc. unfold Record.set_splice_span. rewrite Ht.
    repeat match goal with
           | |- context [let '(_, _) := ?X in _] => destruct X as [? ?]
           end.
    destruct (RegSpanAnno.cross_start s) as [[|]|],
             (RegSpanAnno.cross_end s) as [[|]|];
      try reflexivity; destruct Hc; discriminate.
  - intros a -> Ht Hc. unfold Record.set_splice_site. rewrite Ht.
    destruct (RegAnno.splice a) as [sp|];
      [destruct (negb (SpliceSite.nextto sp)
                 && negb (String.eqb csqn_action "Synonymous"))|];
      destruct (RegAnno.cds_beg a), (RegAnno.cds_end a), (RegAnno.tss a),
               (RegAnno.tes a);
      try reflexivity;
      destruct Hc as [[? H]|[[? H]|[[? H]|[? H]]]]; discriminate.
  - intros Ha Hs. destruct (Record.reg self) as [|a|s| |]; try reflexivity.
    + now destruct (Ha a).
    + now destruct (Hs s).
Qed.

Lemma set_splice_missing_transcript_witness :
  Record.set_splice (Record.init true) "" "Missense" = Raise AttributeError.
Proof.
  apply (proj2 (proj2 (set_splice_missing_transcript (Record.init true)
                         "" "Missense"))); discriminate.
Defined.

(** A span with nothing attached (no splice site, no exon covered as a
    whole, no crossing of the coding sequence) is left as it is, and
    [set_splice] returns false. *)
Theorem set_splice_nothing_attached (self : Record.obj) (s : RegSpanAnno.obj)
    (action csqn_action : string) :
  Record.reg self = Record.RegSpan s ->
  RegSpanAnno.nonempty (RegSpanAnno.splice_donors s) = false ->
  RegSpanAnno.nonempty (RegSpanAnno.splice_acceptors s) = false ->
  RegSpanAnno.nonempty (RegSpanAnno.splice_both s) = false ->
  RegSpanAnno.cross_start s <> Some true ->
  RegSpanAnno.cross_end s <> Some true ->
  Record.set_splice self action csqn_action = Ok (false, self).
Proof.
  intros Hreg Hd Ha Hb Hs He. unfold Record.set_splice. rewrite Hreg.
  unfold Record.set_splice_span.
  destruct (RegSpanAnno.splice_donors s) as [[|? ?]|]; try discriminate;
    destruct (RegSpanAnno.splice_acceptors s) as [[|? ?]|]; try discriminate;
    destruct (RegSpanAnno.splice_both s) as [[|? ?]|]; try discriminate;
    destruct (RegSpanAnno.cross_start s) as [[|]|]; try contradiction;
    destruct (RegSpanAnno.cross_end s) as [[|]|]; try contradiction;
    reflexivity.
Qed.

Lemma set_splice_nothing_attached_witness :
  Record.set_splice
    (Record.mk "NM_1" "chr17" "TP53" "+"
       (Record.RegSpan
          (RegSpanAnno.mk RegAnno.init RegAnno.init [] (Some []) None None
             (Some false) None None None))
       "." true [] Record.no_coords)
    "deletion" "Deletion"
  = Ok (false,
        Record.mk "NM_1" "chr17" "TP53" "+"
          (Record.RegSpan
             (RegSpanAnno.mk RegAnno.init RegAnno.init [] (Some []) None None
                (Some false) None None None))
          "." true [] Record.no_coords).
Proof.
  apply (set_splice_nothing_attached _
           (RegSpanAnno.mk RegAnno.init RegAnno.init [] (Some []) None None
              (Some false) None None None));
    try reflexivity; discriminate.
Defined.

(** ** Rendering a record *)

Lemma formats_csqn_token (self : Record.obj) :
  Record.is_var self = true ->
  Record.formats_csqn self = Record.prepend_info self (csqn_token (Record.csqn self)).
Proof.
  intros H. unfold Record.formats_csqn, csqn_token. rewrite H.
  destruct (Record.csqn self) as [|c0 l]; [reflexivity|].
  destruct (Record.distinct (c0 :: l) =? 1)%nat; reflexivity.
Qed.

Lemma csqn_token_prefix (tags : list string) :
  exists x, csqn_token tags = "CSQN=" +:+ x.
Proof.
  unfold csqn_token. destruct tags as [|c0 l]; [eexists; reflexivity|].
  destruct (Record.distinct (c0 :: l) =? 1)%nat; eexists; reflexivity.
Qed.

Lemma prepend_info_token (self : Record.obj) (x : string) :
  Record.info_set (Record.prepend_info self ("CSQN=" +:+ x)) = true
  /\ (exists rest,
        Record.info (Record.prepend_info self ("CSQN=" +:+ x)) = "CSQN=" +:+ rest)
  /\ Record.csqn (Record.prepend_info self ("CSQN=" +:+ x)) = Record.csqn self
  /\ Record.reg (Record.prepend_info self ("CSQN=" +:+ x)) = Record.reg self
  /\ Record.is_var (Record.prepend_info self ("CSQN=" +:+ x)) = Record.is_var self.
Proof.
  unfold Record.prepend_info.
  destruct (Record.info_set self); simpl; repeat split; try reflexivity;
    eexists; reflexivity.
Qed.

Lemma formats_meta_extends (self : Record.obj) :
  record_extends self (Record.formats_meta self).
Proof.
  unfold Record.formats_meta.
  destruct (Record.reg_t (Record.reg self)) as [t|]; [|apply extends_refl].
  destruct (str_truthy (Transcript.gene_dbxref t)),
           (Transcript.aliases t),
           (str_truthy (Transcript.source t)); extends_step.
Qed.

Lemma formats_meta_csqn (self : Record.obj) :
  Record.csqn (Record.formats_meta self) = Record.csqn self.
Proof.
  unfold Record.formats_meta.
  destruct (Record.reg_t (Record.reg self)) as [t|]; [|reflexivity].
  destruct (str_truthy (Transcript.gene_dbxref t)),
           (Transcript.aliases t),
           (str_truthy (Transcript.source t));
    rewrite ?csqn_append_info; reflexivity.
Qed.

Lemma formats_state (self : Record.obj) (gseq : bool) (line : string)
    (self' : Record.obj) :
  Record.formats self gseq = Ok (line, self') ->
  self' = Record.formats_meta (Record.formats_csqn self)
  /\ (gseq = false ->
      exists pre, line = pre +:+ Record.info self').
Proof.
  unfold Record.formats.
  destruct (Record.reg_format _) as [r|]; simpl; [|discriminate].
  intros [= <- <-]. split; [reflexivity|].
  intros ->.
  set (s := Record.formats_meta (Record.formats_csqn self)).
  exists (Record.tname s +:+ Record.tab +:+ Record.gene s +:+ Record.tab
            +:+ Record.strand s +:+ Record.tab +:+ Record.gnuc s +:+ "/"
            +:+ Record.tnuc s +:+ "/" +:+ Record.taa s +:+ Record.tab
            +:+ r +:+ Record.tab).
  now rewrite !append_assoc.
Qed.

(** The rendering of a variant record: whenever [formats] returns, the info
    of the record starts with the consequence token "CSQN=...", the tags and
    the region of the record are as before, and without the genomic-sequence
    columns the line ends with that info. *)
Theorem formats_variant_info (self : Record.obj) (gseq : bool) (line : string)
    (self' : Record.obj) :
  Record.is_var self = true ->
  Record.formats self gseq = Ok (line, self') ->
  (exists rest, Record.info self' = "CSQN=" +:+ rest)
  /\ Record.csqn self' = Record.csqn self
  /\ Record.reg self' = Record.reg self
  /\ (gseq = false -> exists pre, line = pre +:+ Record.info self').
Proof.
  intros Hv H. apply formats_state in H as [-> Hline].
  rewrite (formats_csqn_token self Hv) in *.
  destruct (csqn_token_prefix (Record.csqn self)) as [x E]. rewrite E in *.
  destruct (prepend_info_token self x) as (Hset & (rest & Hinfo) & Hc & Hr & _).
  destruct (formats_meta_extends (Record.prepend_info self ("CSQN=" +:+ x)))
    as (_ & _ & _ & _ & Er & _ & _ & _ & Ei).
  destruct (Ei Hset) as [_ (suffix & Es)].
  repeat split.
  - exists (rest +:+ suffix). rewrite Es, Hinfo. apply append_assoc.
  - now rewrite formats_meta_csqn.
  - now rewrite Er.
  - exact Hline.
Qed.

Lemma formats_variant_info_witness :
  exists rest,
    Record.info
      (Record.formats_meta
         (Record.formats_csqn
            (Record.mk "NM_1" "chr17" "TP53" "+"
               (Record.RegCDS
                  (RegCDSAnno.mk [3] (Transcript.mk "TP53" "HGNC:1" ["P53"] "RefSeq"
                                        "+" "chr17" 100 200)))
               "x=1" true ["Missense"] Record.no_coords)))
    = "CSQN=" +:+ rest.
Proof.
  destruct (formats_variant_info
    (Record.mk "NM_1" "chr17" "TP53" "+"
       (Record.RegCDS
          (RegCDSAnno.mk [3] (Transcript.mk "TP53" "HGNC:1" ["P53"] "RefSeq"
                                "+" "chr17" 100 200)))
       "x=1" true ["Missense"] Record.no_coords)
    false _ _ eq_refl eq_refl) as [H _].
  exact H.
Defined.

Lemma formats_meta_fold (self : Record.obj) :
  Record.formats_meta self
  = fold_left Record.append_info (meta_tokens (Record.reg self)) self.
Proof.
  unfold Record.formats_meta, meta_tokens.
  destruct (Record.reg_t (Record.reg self)) as [t|]; [|reflexivity].
  destruct (str_truthy (Transcript.gene_dbxref t)),
           (Transcript.aliases t),
           (str_truthy (Transcript.source t)); reflexivity.
Qed.

Lemma formats_meta_info (self : Record.obj) :
  Record.info_set self = true ->
  Record.info (Record.formats_meta self)
  = Record.info self +:+ meta_text (Record.reg self).
Proof.
  intros H. rewrite formats_meta_fold. unfold meta_text.
  destruct (meta_tokens (Record.reg self)) as [|a l].
  - simpl. now rewrite app_empty_r.
  - now rewrite (fold_append_info_set l self a H).
Qed.

Lemma info_set_prepended (x info : string) :
  info_prepended ("CSQN=" +:+ x) info <> ""
  /\ info_prepended ("CSQN=" +:+ x) info <> ".".
Proof.
  unfold info_prepended.
  destruct (String.eqb info "" || String.eqb info "."); split; discriminate.
Qed.

(** Rendering is not repeatable.  The first rendering of a variant record
    leaves as its info the consequence token put in front of the previous
    info, followed by the metadata of the transcript; the second rendering
    puts the same token in front of that once more and appends the same
    metadata once more. *)
Theorem formats_twice (self : Record.obj) (g1 g2 : bool) (l1 l2 : string)
    (s1 s2 : Record.obj) :
  Record.is_var self = true ->
  Record.formats self g1 = Ok (l1, s1) ->
  Record.formats s1 g2 = Ok (l2, s2) ->
  Record.info s1
  = info_prepended (csqn_token (Record.csqn self)) (Record.info self)
      +:+ meta_text (Record.reg self)
  /\ Record.info s2
     = csqn_token (Record.csqn self) +:+ ";" +:+ Record.info s1
         +:+ meta_text (Record.reg self).
Proof.
  intros Hv H1 H2.
  apply formats_state in H1 as [-> _]. apply formats_state in H2 as [-> _].
  rewrite (formats_csqn_token self Hv).
  set (tok := csqn_token (Record.csqn self)).
  destruct (csqn_token_prefix (Record.csqn self)) as [x Ex]. fold tok in Ex.
  set (p1 := Record.prepend_info self tok).
  assert (Hi1 : Record.info p1 = info_prepended tok (Record.info self))
    by apply prepend_info_prepended.
  destruct (prepend_info_fields self tok)
    as (_ & _ & _ & _ & Hr1 & Hv1 & Hc1 & _). fold p1 in Hr1, Hv1, Hc1.
  assert (Hset1 : Record.info_set p1 = true).
  { apply info_set_spec. rewrite Hi1, Ex. apply info_set_prepended. }
  pose proof (formats_meta_info p1 Hset1) as Hm1.
  destruct (formats_meta_extends p1)
    as (_ & _ & _ & _ & Er & Ev & _ & _ & Ei).
  destruct (Ei Hset1) as [Hset' _].
  set (m1 := Record.formats_meta p1) in *.
  split.
  - rewrite Hm1, Hi1, Hr1. reflexivity.
  - assert (Hvm : Record.is_var m1 = true) by congruence.
    rewrite (formats_csqn_token m1 Hvm).
    assert (Hcm : Record.csqn m1 = Record.csqn self)
      by (subst m1; rewrite formats_meta_csqn; exact Hc1).
    rewrite Hcm. fold tok.
    set (p2 := Record.prepend_info m1 tok).
    assert (Hi2 : Record.info p2 = tok +:+ ";" +:+ Record.info m1).
    { subst p2. rewrite prepend_info_info, Hset'. reflexivity. }
    assert (Hset2 : Record.info_set p2 = true).
    { apply info_set_spec. rewrite Hi2, Ex. split; discriminate. }
    destruct (prepend_info_fields m1 tok) as (_ & _ & _ & _ & Hr2 & _).
    fold p2 in Hr2.
    rewrite (formats_meta_info p2 Hset2), Hi2, Hr2, Er, Hr1.
    now rewrite !append_assoc.
Qed.

Lemma formats_twice_witness :
  exists l1 s1 l2 s2,
    Record.formats
      (Record.mk "NM_1" "chr17" "TP53" "+"
         (Record.RegCDS
            (RegCDSAnno.mk [3] (Transcript.mk "TP53" "HGNC:1" ["P53"] "RefSeq"
                                  "+" "chr17" 100 200)))
         "x=1" true ["Missense"] Record.no_coords) false
    = Ok (l1, s1)
    /\ Record.formats s1 false = Ok (l2, s2)
    /\ Record.info s1
       = "CSQN=Missense;x=1;dbxref=HGNC:1;aliases=P53;source=RefSeq"
    /\ Record.info s2
       = "CSQN=Missense;CSQN=Missense;x=1;dbxref=HGNC:1;aliases=P53;source=RefSeq;dbxref=HGNC:1;aliases=P53;source=RefSeq".
Proof.
  set (r := Record.mk "NM_1" "chr17" "TP53" "+"
              (Record.RegCDS
                 (RegCDSAnno.mk [3] (Transcript.mk "TP53" "HGNC:1" ["P53"] "RefSeq"
                                       "+" "chr17" 100 200)))
              "x=1" true ["Missense"] Record.no_coords).
  destruct (Record.formats r false) as [[l1 s1]|e] eqn:E1;
    [|vm_compute in E1; discriminate E1].
  destruct (Record.formats s1 false) as [[l2 s2]|e] eqn:E2.
  - destruct (formats_twice r false false l1 l2 s1 s2 eq_refl E1 E2) as [H1 H2].
    exists l1, s1, l2, s2.
    split; [reflexivity|]. split; [exact E2|]. split.
    + rewrite H1. vm_compute. reflexivity.
    + rewrite H2, H1. vm_compute. reflexivity.
  - exfalso. assert (E1' := E1). vm_compute in E1'. injection E1' as _ <-.
    vm_compute in E2. discriminate E2.
Defined.



(** ** More on region annotations *)

(** [same_region] holds between an annotation and itself and does not
    depend on the order of its arguments, whenever the two descriptions can
    be formatted; it is not transitive, because an annotation without a
    transcript is the same region as annotations of two different
    transcripts. *)
Theorem same_region_relation (r1 r2 : RegAnno.obj) (s1 s2 : string) :
  RegAnno.format r1 false = Ok s1 ->
  RegAnno.format r2 false = Ok s2 ->
  same_region r1 r1 = Ok true
  /\ same_region r1 r2 = same_region r2 r1
  /\ (exists a b c,
        same_region a b = Ok true /\ same_region b c = Ok true
        /\ same_region a c = Ok false).
Proof.
  intros H1 H2. unfold same_region. rewrite H1, H2. simpl.
  repeat split.
  - rewrite String.eqb_refl. simpl. f_equal.
    destruct (RegAnno.t r1); [|reflexivity].
    simpl. now rewrite bool_decide_eq_true_2.
  - f_equal. rewrite (String.eqb_sym s2 s1). f_equal.
    destruct (RegAnno.t r1) as [x|], (RegAnno.t r2) as [y|]; try reflexivity.
    simpl. apply bool_decide_ext. split; congruence.
  - exists (RegAnno.mk false None false None false None None None None None
              (Some (Transcript.mk "A" "" [] "" "+" "chr1" 1 2)) None None None),
           RegAnno.init,
           (RegAnno.mk false None false None false None None None None None
              (Some (Transcript.mk "B" "" [] "" "+" "chr1" 1 2)) None None None).
    repeat split; reflexivity.
Qed.

Lemma same_region_relation_witness :
  same_region RegAnno.init RegAnno.init = Ok true.
Proof.
  apply (same_region_relation RegAnno.init RegAnno.init "inside_[]" "inside_[]");
    reflexivity.
Defined.

(** The predicates of a span and its consequence label do not depend on
    which boundary comes first. *)
Theorem span_boundary_order (b1 b2 : RegAnno.obj) (sp : list Gene.obj)
    (ds acs : option (list (Z * string * Z))) (bo : option (list Z))
    (cs ce : option bool) (ig : option RegSpanAnno.intergenic_obj)
    (t : option Transcript.obj) :
  let s12 := RegSpanAnno.mk b1 b2 sp ds acs bo cs ce ig t in
  let s21 := RegSpanAnno.mk b2 b1 sp ds acs bo cs ce ig t in
  RegSpanAnno.in_UTR s21 = RegSpanAnno.in_UTR s12
  /\ RegSpanAnno.in_exon s21 = RegSpanAnno.in_exon s12
  /\ RegSpanAnno.in_intron s21 = RegSpanAnno.in_intron s12
  /\ RegSpanAnno.entirely_in_cds s21 = RegSpanAnno.entirely_in_cds s12
  /\ RegSpanAnno.csqn s21 = RegSpanAnno.csqn s12.
Proof.
  intros s12 s21.
  assert (Hsym : forall (A : Type) `{EqDecision A} (x y : A),
             bool_decide (x = y) = bool_decide (y = x))
    by (intros; apply bool_decide_ext; split; congruence).
  assert (HU : RegSpanAnno.in_UTR s21 = RegSpanAnno.in_UTR s12).
  { unfold RegSpanAnno.in_UTR; simpl.
    rewrite (Hsym _ _ (RegAnno.UTR b2) (RegAnno.UTR b1)).
    now rewrite (andb_comm (truthy (RegAnno.UTR b2))). }
  assert (HI : RegSpanAnno.in_intron s21 = RegSpanAnno.in_intron s12).
  { unfold RegSpanAnno.in_intron; simpl.
    rewrite (Hsym _ _ (RegAnno.intron_exon1 b2)), (Hsym _ _ (RegAnno.intron_exon2 b2)).
    now rewrite (andb_comm (RegAnno.intronic b2)). }
  repeat split; try assumption.
  - unfold RegSpanAnno.in_exon; simpl.
    rewrite (Hsym _ _ (RegAnno.exon b2)).
    now rewrite (andb_comm (RegAnno.exonic b2)).
  - unfold RegSpanAnno.entirely_in_cds; simpl.
    rewrite (Hsym _ _ (RegAnno.exon b2)).
    now rewrite (andb_comm (RegAnno.cds b2)).
  - unfold RegSpanAnno.csqn. rewrite HI, HU.
    change (RegSpanAnno.intergenic s21) with (RegSpanAnno.intergenic s12).
    change (RegSpanAnno.splice_donors s21) with (RegSpanAnno.splice_donors s12).
    change (RegSpanAnno.splice_acceptors s21)
      with (RegSpanAnno.splice_acceptors s12).
    destruct (RegSpanAnno.in_UTR s12) eqn:E; [|reflexivity].
    unfold RegSpanAnno.in_UTR in E; simpl in E.
    apply andb_prop in E as [_ E]. apply bool_decide_eq_true in E.
    simpl. now rewrite E.
Qed.

(** The description of an intergenic site can be formatted exactly when
    both distances are set: a missing distance raises TypeError, nothing
    else is raised, and a missing name or strand is no error. *)
Theorem intergenic_format_errors (a : RegIntergenicAnno.obj) :
  (RegIntergenicAnno.format0 a = Raise TypeError
   <-> RegIntergenicAnno.e5_dist a = None \/ RegIntergenicAnno.e3_dist a = None)
  /\ (forall e, RegIntergenicAnno.format0 a = Raise e -> e = TypeError)
  /\ (forall s, RegIntergenicAnno.format0 a = Ok s ->
      RegIntergenicAnno.format a = Ok ("inside_[" +:+ s +:+ "]")).
Proof.
  unfold RegIntergenicAnno.format, RegIntergenicAnno.format0.
  destruct a as [n5 [d5|] s5 n3 [d3|] s3]; simpl;
    destruct s5, s3; simpl; repeat split;
    try discriminate; try (intros [H|H]; discriminate); try (intros; auto; fail);
    try (intros e [= <-]; reflexivity);
    try (intros s [= <-]; reflexivity).
Qed.

Lemma intergenic_format_errors_witness :
  RegIntergenicAnno.format0
    (RegIntergenicAnno.mk (Some "A") None (Some "+") (Some "B") (Some 5) None)
  = Raise TypeError.
Proof.
  apply (proj1 (intergenic_format_errors _)). left. reflexivity.
Defined.

(** The description of a site that is not intergenic: without the gene
    name it raises nothing but TypeError, exactly when the site is flagged
    intronic with an exon of the intron missing, or exonic (and not
    intronic) with its exon missing; with the gene name it is the same
    description followed by the gene name of the transcript, and raises
    AttributeError when there is no transcript. *)
Theorem site_format_errors (a : RegAnno.obj) :
  RegAnno.intergenic a = None ->
  (RegAnno.format0 a false = Raise TypeError
   <-> (RegAnno.intronic a = true
        /\ (RegAnno.intron_exon1 a = None \/ RegAnno.intron_exon2 a = None))
       \/ (RegAnno.intronic a = false /\ RegAnno.exonic a = true
           /\ RegAnno.exon a = None))
  /\ (forall e, RegAnno.format0 a false = Raise e -> e = TypeError)
  /\ (forall f, RegAnno.format0 a false = Ok f ->
      RegAnno.format0 a true
      = match RegAnno.t a with
        | Some tr => Ok (append_inf f (Transcript.gene_name tr))
        | None => Raise AttributeError
        end).
Proof.
  intros Hig. unfold RegAnno.format0. rewrite Hig.
  destruct (RegAnno.intronic a), (RegAnno.exonic a), (RegAnno.cds a),
           (RegAnno.intron_exon1 a), (RegAnno.intron_exon2 a),
           (RegAnno.exon a), (RegAnno.t a); simpl;
    (split; [split; [try discriminate; intros _; auto; fail
                    | intros [[? [H|H]]|(? & ? & H)]; try discriminate; reflexivity]
            | split; [intros e H; try discriminate; now injection H
                     | intros f H; try discriminate; now injection H as <-]]).
Qed.

Lemma site_format_errors_witness :
  RegAnno.format0
    (RegAnno.mk true None true None false None None None None None None
                None None None) false
  = Raise TypeError.
Proof.
  apply (proj1 (site_format_errors
                  (RegAnno.mk true None true None false None None None None
                              None None None None None) eq_refl)).
  right. repeat split; reflexivity.
Defined.

(** The description of a span.  With an intergenic attachment it is the
    description of that attachment.  Otherwise, when its boundaries are the
    same region it is the description of the first boundary as a single
    site; when they are not, the genes it spans only add a suffix to the
    description: nothing for no gene, the names for up to five genes, their
    number for more. *)
Theorem span_format (b1 b2 : RegAnno.obj) (sp : list Gene.obj)
    (ds acs : option (list (Z * string * Z))) (bo : option (list Z))
    (cs ce : option bool) (t : option Transcript.obj) :
  (forall ig,
     RegSpanAnno.format (RegSpanAnno.mk b1 b2 sp ds acs bo cs ce (Some ig) t)
     = RegIntergenicAnno.format (RegSpanAnno.ig_anno ig))
  /\ (same_region b1 b2 = Ok true ->
      RegSpanAnno.format (RegSpanAnno.mk b1 b2 sp ds acs bo cs ce None t)
      = RegAnno.format b1 false)
  /\ (forall base,
        same_region b1 b2 = Ok false ->
        RegSpanAnno.format (RegSpanAnno.mk b1 b2 [] ds acs bo cs ce None t)
        = Ok base ->
        RegSpanAnno.format (RegSpanAnno.mk b1 b2 sp ds acs bo cs ce None t)
        = Ok (base +:+ spanning_suffix sp)).
Proof.
  split; [reflexivity|]. split.
  - intros H. unfold RegSpanAnno.format; simpl. rewrite H. reflexivity.
  - intros base H. unfold RegSpanAnno.format; simpl. rewrite H. simpl.
    match goal with
    | |- (?X ≫= _) = _ -> _ => destruct X as [s|]
    end; simpl; [|discriminate].
    intros [= <-]. f_equal.
    destruct sp as [|g sp]; [now rewrite app_empty_r|].
    unfold spanning_suffix. cbn [length Nat.ltb Nat.leb].
    destruct (length sp <=? 4)%nat; reflexivity.
Qed.

Lemma span_format_witness :
  RegSpanAnno.format
    (RegSpanAnno.mk
       (RegAnno.mk true (Some 2) true None false None None None None None
                   (Some (Transcript.mk "TP53" "" [] "" "-" "chr17" 100 200))
                   None None None)
       (RegAnno.mk true (Some 5) true None false None None None None None
                   (Some (Transcript.mk "TP53" "" [] "" "-" "chr17" 100 200))
                   None None None)
       [Gene.mk "A"; Gene.mk "B"; Gene.mk "C"; Gene.mk "D"; Gene.mk "E";
        Gene.mk "F"]
       None None None None None None None)
  = Ok ("from_[cds_in_exon_2]_to_[cds_in_exon_5]"
          +:+ spanning_suffix
                [Gene.mk "A"; Gene.mk "B"; Gene.mk "C"; Gene.mk "D"; Gene.mk "E";
                 Gene.mk "F"]).
Proof.
  apply (proj2 (proj2 (span_format _ _ _ None None None None None None)));
    reflexivity.
Defined.

(** ** More on [normalize_reg] *)

(** Against a reference length that is not negative, normalizing a region
    a second time changes nothing and writes no warning; and a region whose
    begin is not after its end stays so. *)
Theorem normalize_reg_idempotent {Tok : Type} (reflen : Tok -> Z)
    (q : Query.obj Tok) :
  0 <= reflen (Query.tok q) ->
  normalize_reg reflen (normalize_reg reflen q).1
  = ((normalize_reg reflen q).1, [])
  /\ (Query.beg q <= Query.end_ q ->
      Query.beg (normalize_reg reflen q).1
      <= Query.end_ (normalize_reg reflen q).1).
Proof.
  destruct q as [b e tk]; simpl. intros HL.
  unfold normalize_reg, err_warn.
  cbn [Query.beg Query.end_ Query.tok fst snd].
  case_compare; repeat split; try reflexivity; lia.
Qed.

Lemma normalize_reg_idempotent_witness :
  normalize_reg (fun _ : unit => 1000) (Query.mk 0 1000 tt)
  = (Query.mk 0 1000 tt, []).
Proof.
  apply (proj1 (normalize_reg_idempotent (fun _ : unit => 1000)
                  (Query.mk (-10) 1050 tt) ltac:(simpl; lia))).
Defined.

(** ** Coordinates of a record *)

Lemma string_length_app (a b : string) :
  String.length (a +:+ b) = (String.length a + String.length b)%nat.
Proof.
  induction a as [|c a IH]; [reflexivity|].
  change (String c a +:+ b) with (String c (a +:+ b)). simpl. now rewrite IH.
Qed.

Lemma str_Z_nonempty (z : Z) : (0 < String.length (str_Z z))%nat.
Proof.
  destruct z as [|p|p]; [simpl; lia | | rewrite str_Z_neg; simpl; lia].
  destruct (str_Z_digits (Z.pos p)) as (c & s & -> & _); [lia | simpl; lia].
Qed.

Lemma repr_nonempty (p : Pos.obj) : (0 < String.length (Pos.repr p))%nat.
Proof.
  unfold Pos.repr.
  destruct (Pos.tpos p <? 0); [|destruct (Pos.tpos p >? 0);
                                 [destruct (Pos.pos p <? 0)|]];
    rewrite ?string_length_app;
    pose proof (str_Z_nonempty (Pos.pos p));
    pose proof (str_Z_nonempty (Pos.tpos p)); simpl; lia.
Qed.

Lemma truthy_length (x : option string) :
  truthy x = true -> (0 < String.length (pct_s x))%nat.
Proof. destruct x as [[|c s]|]; try discriminate. simpl. lia. Qed.

Lemma coord_truthy_length (c : option Record.coord) :
  Record.coord_truthy c = true -> (0 < String.length (Record.coord_str c))%nat.
Proof.
  destruct c as [[z|p|s]|]; simpl; try discriminate; intros H.
  - apply str_Z_nonempty.
  - apply repr_nonempty.
  - destruct s; [discriminate | simpl; lia].
Qed.

(** The transcript and the protein coordinates of a record are the
    placeholder "." exactly when nothing is attached on that axis: no
    range, position, reference or alternative that counts as set. *)
Theorem coordinate_placeholder (self : Record.obj) :
  (Record.tnuc self = "."
   <-> truthy (Record.tnuc_range (Record.co self)) = false
       /\ Record.coord_truthy (Record.tnuc_pos (Record.co self)) = false
       /\ truthy (Record.tnuc_ref (Record.co self)) = false
       /\ truthy (Record.tnuc_alt (Record.co self)) = false)
  /\ (Record.taa self = "."
      <-> truthy (Record.taa_range (Record.co self)) = false
          /\ truthy (Record.taa_ref (Record.co self)) = false
          /\ Record.coord_truthy (Record.taa_pos (Record.co self)) = false
          /\ truthy (Record.taa_alt (Record.co self)) = false).
Proof.
  assert (Hne : forall s pre, (String.length pre < String.length s)%nat ->
                  String.eqb s pre = false).
  { intros s pre H. destruct (String.eqb_spec s pre); [subst; lia | reflexivity]. }
  assert (Hc : forall a b, String "c" a <> "." /\ String "p" b <> ".")
    by (split; discriminate).
  split.
  - unfold Record.tnuc.
    destruct (truthy (Record.tnuc_range (Record.co self))) eqn:Hr.
    + pose proof (truthy_length _ Hr) as L.
      rewrite Hne by (rewrite string_length_app; simpl; lia).
      split; [intros H; discriminate H | intros [H _]; discriminate H].
    + destruct (Record.coord_truthy (Record.tnuc_pos (Record.co self))) eqn:Hp,
               (truthy (Record.tnuc_ref (Record.co self))) eqn:Hf,
               (truthy (Record.tnuc_alt (Record.co self))) eqn:Ha;
        try pose proof (coord_truthy_length _ Hp);
        try pose proof (truthy_length _ Hf);
        try pose proof (truthy_length _ Ha);
        try (rewrite Hne by (rewrite ?string_length_app; simpl;
                             rewrite ?string_length_app; simpl; lia);
             split; [intros E; discriminate E
                    | intros (_ & E1 & E2 & E3); discriminate]).
      split; [auto | reflexivity].
  - unfold Record.taa.
    destruct (truthy (Record.taa_range (Record.co self))) eqn:Hr.
    + pose proof (truthy_length _ Hr) as L.
      rewrite Hne by (rewrite string_length_app; simpl; lia).
      split; [intros H; discriminate H | intros [H _]; discriminate H].
    + destruct (truthy (Record.taa_ref (Record.co self))) eqn:Hf,
               (Record.coord_truthy (Record.taa_pos (Record.co self))) eqn:Hp,
               (truthy (Record.taa_alt (Record.co self))) eqn:Ha;
        try pose proof (coord_truthy_length _ Hp);
        try pose proof (truthy_length _ Hf);
        try pose proof (truthy_length _ Ha);
        try (rewrite Hne by (rewrite ?string_length_app; simpl;
                             rewrite ?string_length_app; simpl; lia);
             split; [intros E; discriminate E
                    | intros (_ & E1 & E2 & E3); discriminate]).
      split; [auto | reflexivity].
Qed.

Lemma coordinate_placeholder_witness :
  Record.tnuc (Record.init true) = "." /\ Record.taa (Record.init true) = ".".
Proof.
  split.
  - apply (proj2 (proj1 (coordinate_placeholder (Record.init true)))).
    repeat split; reflexivity.
  - apply (proj2 (proj2 (coordinate_placeholder (Record.init true)))).
    repeat split; reflexivity.
Defined.
